(** * QRCode canvas renderer (src/lib/index.tsx): shallow embedding and properties

    The component's [update] method paints a QR module grid on a 2D canvas.
    The embedding keeps the shape of the source:

    - JavaScript numbers are rationals [Q]: a finite double is one.  No NaN
      and no Infinity (a division by zero yields [0], as [Qdiv] does; no
      property below divides by zero on a cell that is painted).
      [Math.round], [Math.ceil] and [Math.floor] are the exact integer
      roundings, as they are on doubles.  Grid indices are integers [Z].
    - Arithmetic comes in two forms.  The eyes, the logo overlay and the
      geometric readings of the paths compute with the exact operations of
      [Q].  The module loops are also written over an arbitrary machine
      arithmetic ([Arith]: the four operations, each a function on
      rationals), with the exact operations ([exact]) and the rounded
      operations of doubles ([binary64]) as instances; what the
      specification says of the numbers that the module loops hand to the
      canvas is proved for every arithmetic.
    - Truthiness follows JavaScript on the values that occur: the number
      zero, the empty string and [undefined] (an absent optional property or
      array entry, [None]) are falsy.
    - The canvas context is write-only in [update]: every [ctx] call or
      assignment becomes one [CanvasOp], and a paint is the list of the
      operations in program order, together with the exception that
      stopped it, if any.
    - The QR encoder (qrcode-generator) is an external collaborator: a value
      of [QRCodeModel] stands for the object returned by [qrGenerator] after
      [addData(utf16to8(value))] and [make()].
    - [Math.PI], [Math.cos] and [Math.sin] are taken as a parameter
      ([MathLib]), since they are not rational functions.
    - [download], [shouldComponentUpdate] and [render] take no part in the
      paint and are left out; [utf16to8] is modelled on its own. *)

From Stdlib Require Import ZArith QArith Qround Qminmax.
From Stdlib Require Import String List Bool Lia Lqa.
Import ListNotations.

Open Scope Q_scope.

(** ** Numbers *)

(** [Math.round(x)]: nearest integer, halves towards plus infinity. *)
Definition Math_round (x : Q) : Q := inject_Z (Qfloor (x + (1 # 2))).
Definition Math_ceil (x : Q) : Q := inject_Z (Qceiling x).
Definition Math_floor (x : Q) : Q := inject_Z (Qfloor x).
Definition Math_min (a b : Q) : Q := Qmin a b.

(** Truthiness of a number ([if (r)], [r || 0]): zero is falsy. *)
Definition truthy (x : Q) : bool := negb (Qeq_bool x 0).

(** [a || b] on numbers. *)
Definition orElse (a b : Q) : Q := if truthy a then a else b.

(** [r < 0] as a test. *)
Definition Qltb (a b : Q) : bool := negb (Qle_bool b a).

(** Truthiness of a string: the empty string is falsy. *)
Definition truthyStr (s : string) : bool := negb (String.eqb s "").

(** The trigonometric part of [Math]. *)
Record MathLib := {
  Math_PI : Q;
  Math_cos : Q -> Q;
  Math_sin : Q -> Q
}.

(** ** Canvas operations *)

Inductive CanvasOp :=
| ResizeCanvas (width height : Q)            (* canvas.height = canvas.width = ... *)
| Scale (sx sy : Q)                          (* ctx.scale *)
| SetFillStyle (c : string)                  (* ctx.fillStyle = c *)
| SetStrokeStyle (c : string)                (* ctx.strokeStyle = c *)
| SetLineWidth (w : Q)                       (* ctx.lineWidth = w *)
| SetGlobalAlpha (a : Q)                     (* ctx.globalAlpha = a *)
| FillRect (x y w h : Q)
| BeginPath
| MoveTo (x y : Q)
| LineTo (x y : Q)
| QuadraticCurveTo (cpx cpy x y : Q)
| BezierCurveTo (cp1x cp1y cp2x cp2y x y : Q)
| Arc (x y radius startAngle endAngle : Q) (counterclockwise : bool)
| Ellipse (x y radiusX radiusY rotation startAngle endAngle : Q)
| ClosePath
| Stroke
| Fill
| Save
| Restore
| DrawImage (src : string) (dx dy dWidth dHeight : Q)
| InvokeLogoOnLoad.                          (* logoOnLoad(e) *)

(** ** The encoder's result *)

Record QRCodeModel := {
  getModuleCount : Z;
  isDark : Z -> Z -> bool
}.

Module ICoordinates.
Record t := { row : Z; col : Z }.
End ICoordinates.

(** ** Finder zones *)

(** [isInPositioninZone(col, row, zones)]; the parameter order is the
    source's. *)
Definition isInPositioninZone (col row : Z) (zones : list ICoordinates.t) : bool :=
  existsb (fun zone =>
             (ICoordinates.row zone <=? row)%Z &&
             (row <=? ICoordinates.row zone + 7)%Z &&
             (ICoordinates.col zone <=? col)%Z &&
             (col <=? ICoordinates.col zone + 7)%Z)
          zones.

(** ** Property types *)

(** [number | number[]]: the [radii] argument of [drawRoundedSquare]. *)
Inductive Radii :=
| RadiiNumber (r : Q)
| RadiiArray (l : list Q).

(** [CornerRadii]: a number, an array of numbers, or an [{inner, outer}]
    object. *)
Inductive CornerRadii :=
| CornerRadiiPlain (r : Radii)
| InnerOuterRadii (inner outer : Radii).

(** The [eyeRadius] property as a run-time value: a number, an object, or
    an array (whose entries are looked up by eye index, whatever the array
    was meant to be). *)
Inductive EyeRadiusProp :=
| EyeRadiusNumber (r : Q)
| EyeRadiusObject (inner outer : Radii)
| EyeRadiusArray (l : list CornerRadii).

Inductive EyeColor :=
| EyeColorString (c : string)
| InnerOuterEyeColor (inner outer : string).

(** The [eyeColor] property as a run-time value: one colour, or an array
    looked up by eye index.  An entry of the array that is [undefined] or
    [null] is [None]; an index past the end reads [undefined] as well. *)
Inductive EyeColorProp :=
| EyeColorSingle (c : EyeColor)
| EyeColorArray (l : list (option EyeColor)).

Inductive JsError :=
| TypeError.

(** A paint that may stop with an exception: the operations issued so far
    stay on the canvas. *)
Record Draw := {
  ops : list CanvasOp;
  thrown : option JsError
}.

Definition done (l : list CanvasOp) : Draw := {| ops := l; thrown := None |}.
Definition throw (e : JsError) : Draw := {| ops := []; thrown := Some e |}.

(** Sequencing: the second part runs only when the first completed. *)
Definition andThen (d1 d2 : Draw) : Draw :=
  match thrown d1 with
  | Some _ => d1
  | None => {| ops := ops d1 ++ ops d2; thrown := thrown d2 |}
  end.

(** ** drawRoundedSquare *)

Record RoundedSquareCall := {
  callLineWidth : Q;
  callX : Q;
  callY : Q;
  callSize : Q;
  callColor : string;
  callRadii : Radii;
  callFill : bool
}.

(** [if (!Array.isArray(radii)) radii = [radii, radii, radii, radii]]. *)
Definition radiiAsArray (radii : Radii) : list Q :=
  match radii with
  | RadiiNumber r => [r; r; r; r]
  | RadiiArray l => l
  end.

(** The callback of [radii.map]: [r = Math.min(r, size / 2); return r < 0 ? 0 : r]. *)
Definition clampRadius (size r : Q) : Q :=
  let r := Math_min r (size / 2) in
  if Qltb r 0 then 0 else r.

(** [radii[i] || 0]; a missing entry is [undefined], hence [0]. *)
Definition radiusAt (radii : list Q) (i : nat) : Q :=
  match nth_error radii i with
  | Some r => orElse r 0
  | None => 0
  end.

(** The four effective corner radii, for a square whose side is [size] once
    the line width is subtracted: top-left, top-right, bottom-right,
    bottom-left. *)
Definition cornerRadii (size : Q) (radii : Radii) : Q * Q * Q * Q :=
  let radii := map (clampRadius size) (radiiAsArray radii) in
  (radiusAt radii 0, radiusAt radii 1, radiusAt radii 2, radiusAt radii 3).

Definition drawRoundedSquare (lineWidth x y size : Q) (color : string)
    (radii : Radii) (fill : bool) : list CanvasOp :=
  let y := y + lineWidth / 2 in
  let x := x + lineWidth / 2 in
  let size := size - lineWidth in
  let '(rTopLeft, rTopRight, rBottomRight, rBottomLeft) := cornerRadii size radii in
  [SetLineWidth lineWidth; SetFillStyle color; SetStrokeStyle color;
   BeginPath;
   MoveTo (x + rTopLeft) y;
   LineTo (x + size - rTopRight) y]
  ++ (if truthy rTopRight
      then [QuadraticCurveTo (x + size) y (x + size) (y + rTopRight)] else [])
  ++ [LineTo (x + size) (y + size - rBottomRight)]
  ++ (if truthy rBottomRight
      then [QuadraticCurveTo (x + size) (y + size) (x + size - rBottomRight) (y + size)]
      else [])
  ++ [LineTo (x + rBottomLeft) (y + size)]
  ++ (if truthy rBottomLeft
      then [QuadraticCurveTo x (y + size) x (y + size - rBottomLeft)] else [])
  ++ [LineTo x (y + rTopLeft)]
  ++ (if truthy rTopLeft
      then [QuadraticCurveTo x y (x + rTopLeft) y] else [])
  ++ [ClosePath; Stroke]
  ++ (if fill then [Fill] else []).

Definition runCall (c : RoundedSquareCall) : list CanvasOp :=
  drawRoundedSquare (callLineWidth c) (callX c) (callY c) (callSize c)
                    (callColor c) (callRadii c) (callFill c).

(** ** drawPositioningPattern *)

(** [radii.outer || 0]: a zero stays zero, an array is always truthy. *)
Definition radiiOrZero (r : Radii) : Radii :=
  match r with
  | RadiiNumber q => RadiiNumber (orElse q 0)
  | RadiiArray l => RadiiArray l
  end.

(** The two [drawRoundedSquare] calls of one eye, in order.  [radii] is
    [None] for [undefined], which selects the default [[0, 0, 0, 0]];
    [color] is [None] for [undefined], and reading [color.outer] then
    throws before anything is drawn. *)
Definition positioningPatternCalls (cellSize offset : Q) (row col : Z)
    (color : option EyeColor) (radii : option CornerRadii)
  : JsError + list RoundedSquareCall :=
  let radii := match radii with
               | Some r => r
               | None => CornerRadiiPlain (RadiiArray [0; 0; 0; 0])
               end in
  let lineWidth := Math_ceil cellSize in
  let '(radiiOuter, radiiInner) :=
    match radii with
    | InnerOuterRadii inner outer => (radiiOrZero outer, radiiOrZero inner)
    | CornerRadiiPlain r => (r, r)
    end in
  match color with
  | None => inl TypeError
  | Some color =>
    let '(colorOuter, colorInner) :=
      match color with
      | InnerOuterEyeColor inner outer => (outer, inner)
      | EyeColorString c => (c, c)
      end in
    let y := inject_Z row * cellSize + offset in
    let x := inject_Z col * cellSize + offset in
    let size := cellSize * 7 in
    (* Outer box *)
    let outerBox := {| callLineWidth := lineWidth; callX := x; callY := y;
                       callSize := size; callColor := colorOuter;
                       callRadii := radiiOuter; callFill := false |} in
    (* Inner box *)
    let size := cellSize * 3 in
    let y := y + cellSize * 2 in
    let x := x + cellSize * 2 in
    let innerBox := {| callLineWidth := lineWidth; callX := x; callY := y;
                       callSize := size; callColor := colorInner;
                       callRadii := radiiInner; callFill := true |} in
    inr [outerBox; innerBox]
  end.

Definition drawPositioningPattern (cellSize offset : Q) (row col : Z)
    (color : option EyeColor) (radii : option CornerRadii) : Draw :=
  match positioningPatternCalls cellSize offset row col color radii with
  | inl e => throw e
  | inr calls => done (flat_map runCall calls)
  end.

(** [transformPixelLengthIntoNumberOfCells] *)
Definition transformPixelLengthIntoNumberOfCells (pixelLength cellSize : Q) : Q :=
  pixelLength / cellSize.

(** [isCoordinateInImage]: the module-under-logo test.  It is defined by the
    class and called from nowhere. *)
Definition isCoordinateInImage (col row : Z)
    (dWidthLogo dHeightLogo dxLogo dyLogo cellSize : Q)
    (logoImage : option string) : bool :=
  match logoImage with
  | Some src =>
    if truthyStr src then
      let numberOfCellsMargin := 2 in
      let firstRowOfLogo := transformPixelLengthIntoNumberOfCells dxLogo cellSize in
      let firstColumnOfLogo := transformPixelLengthIntoNumberOfCells dyLogo cellSize in
      let logoWidthInCells :=
        transformPixelLengthIntoNumberOfCells dWidthLogo cellSize - 1 in
      let logoHeightInCells :=
        transformPixelLengthIntoNumberOfCells dHeightLogo cellSize - 1 in
      Qle_bool (firstRowOfLogo - numberOfCellsMargin) (inject_Z row) &&
      Qle_bool (inject_Z row) (firstRowOfLogo + logoWidthInCells + numberOfCellsMargin) &&
      Qle_bool (firstColumnOfLogo - numberOfCellsMargin) (inject_Z col) &&
      Qle_bool (inject_Z col) (firstColumnOfLogo + logoHeightInCells + numberOfCellsMargin)
    else false
  | None => false
  end.

(** ** The module loops *)

(** The values of [for (i = 0; i < n; i++)]. *)
Definition range (n : Z) : list Z := map Z.of_nat (seq 0 (Z.to_nat n)).

(** The nest [for row ... for col ... if (isDark(row, col) &&
    !isInPositioninZone(row, col, zones)) { paint }], which every style
    branch of [update] repeats; [paint] is the body of the [if].  Note the
    call: [row] is passed for the parameter named [col] and [col] for the
    one named [row]. *)
Definition forEachModule {A : Type} (qrCode : QRCodeModel)
    (positioningZones : list ICoordinates.t) (paint : Z -> Z -> list A) : list A :=
  let length := getModuleCount qrCode in
  flat_map (fun row =>
    flat_map (fun col =>
      if isDark qrCode row col && negb (isInPositioninZone row col positioningZones)
      then paint row col
      else [])
      (range length))
    (range length).

(** The cells whose [if] body runs, in loop order. *)
Definition paintedCells (qrCode : QRCodeModel)
    (positioningZones : list ICoordinates.t) : list (Z * Z) :=
  forEachModule qrCode positioningZones (fun row col => [(row, col)]).

(** ** The style branches *)

(** The branches in exact arithmetic; [StylesIn] below gives them over a
    machine arithmetic. *)

Definition vertexOp (i : nat) (x y : Q) : CanvasOp :=
  if Nat.eqb i 0 then MoveTo x y else LineTo x y.

Definition ofNat (i : nat) : Q := inject_Z (Z.of_nat i).

Section Styles.

Variable M : MathLib.
Variable qrCode : QRCodeModel.
Variables cellSize offset : Q.
Variable fgColor : string.

(** hearts: the path drawn once [centerX], [centerY] are known. *)
Definition heartShape (centerX centerY : Q) : list CanvasOp :=
  let radius := cellSize / 4 in
  [BeginPath;
   MoveTo centerX (centerY + radius);
   BezierCurveTo (centerX + radius) (centerY + radius / (3 # 2))
                 (centerX + radius * 2) (centerY - radius / 3)
                 centerX (centerY - radius * 2);
   BezierCurveTo (centerX - radius * 2) (centerY - radius / 3)
                 (centerX - radius) (centerY + radius / (3 # 2))
                 centerX (centerY + radius);
   ClosePath; Fill].

Definition paintHeart (row col : Z) : list CanvasOp :=
  let centerX := Math_round (inject_Z col * cellSize) + cellSize / 2 + offset in
  let centerY := Math_round (inject_Z row * cellSize) + cellSize / 2 + offset in
  heartShape centerX centerY.

(** stars *)
Definition starShape (centerX centerY : Q) : list CanvasOp :=
  let starPoints := 5%nat in
  let outerRadius := cellSize / 2 in
  let innerRadius := outerRadius / 2 in
  let angle := Math_PI M / 5 in
  [BeginPath]
  ++ map (fun i =>
            let radius := if Nat.even i then outerRadius else innerRadius in
            let x := centerX + radius * Math_cos M (ofNat i * angle) in
            let y := centerY - radius * Math_sin M (ofNat i * angle) in
            vertexOp i x y)
         (seq 0 (2 * starPoints))
  ++ [ClosePath; Fill].

Definition paintStar (row col : Z) : list CanvasOp :=
  let centerX := Math_round (inject_Z col * cellSize) + cellSize / 2 + offset in
  let centerY := Math_round (inject_Z row * cellSize) + cellSize / 2 + offset in
  starShape centerX centerY.

(** diamonds *)
Definition diamondShape (centerX centerY : Q) : list CanvasOp :=
  let halfCellSize := cellSize / 2 in
  [BeginPath;
   MoveTo centerX (centerY - halfCellSize);
   LineTo (centerX + halfCellSize) centerY;
   LineTo centerX (centerY + halfCellSize);
   LineTo (centerX - halfCellSize) centerY;
   ClosePath; Fill].

Definition paintDiamond (row col : Z) : list CanvasOp :=
  let halfCellSize := cellSize / 2 in
  let centerX := Math_round (inject_Z col * cellSize) + halfCellSize + offset in
  let centerY := Math_round (inject_Z row * cellSize) + halfCellSize + offset in
  diamondShape centerX centerY.

(** octagons, pentagons, triangles: the same body with [numSides] 8, 5, 3. *)
Definition polygonShape (numSides : nat) (centerX centerY : Q) : list CanvasOp :=
  let radius := cellSize / 2 in
  let angleStep := (2 * Math_PI M) / ofNat numSides in
  [BeginPath]
  ++ map (fun i =>
            let x := centerX + radius * Math_cos M (ofNat i * angleStep) in
            let y := centerY + radius * Math_sin M (ofNat i * angleStep) in
            vertexOp i x y)
         (seq 0 numSides)
  ++ [ClosePath; Fill].

Definition paintPolygon (numSides : nat) (row col : Z) : list CanvasOp :=
  let radius := cellSize / 2 in
  let centerX := Math_round (inject_Z col * cellSize) + radius + offset in
  let centerY := Math_round (inject_Z row * cellSize) + radius + offset in
  polygonShape numSides centerX centerY.

(** dots *)
Definition dotShape (centerX centerY : Q) : list CanvasOp :=
  let radius := cellSize / 2 in
  [BeginPath;
   Arc centerX centerY ((radius / 100) * 75) 0 (2 * Math_PI M) false;
   ClosePath; Fill].

Definition paintDot (row col : Z) : list CanvasOp :=
  let radius := cellSize / 2 in
  dotShape (Math_round (inject_Z col * cellSize) + radius + offset)
           (Math_round (inject_Z row * cellSize) + radius + offset).

(** fluid: the four neighbour tests. *)
Definition isDarkUp (row col : Z) : bool :=
  (0 <? row)%Z && isDark qrCode (row - 1) col.
Definition isDarkDown (row col : Z) : bool :=
  (row <? getModuleCount qrCode - 1)%Z && isDark qrCode (row + 1) col.
Definition isDarkLeft (row col : Z) : bool :=
  (0 <? col)%Z && isDark qrCode row (col - 1).
Definition isDarkRight (row col : Z) : bool :=
  (col <? getModuleCount qrCode - 1)%Z && isDark qrCode row (col + 1).

Definition paintFluid (row col : Z) : list CanvasOp :=
  let radius := cellSize / (3 # 2) in
  let x := Math_round (inject_Z col * cellSize) + offset in
  let y := Math_round (inject_Z row * cellSize) + offset in
  let w := Math_ceil (inject_Z (col + 1) * cellSize) - Math_floor (inject_Z col * cellSize) in
  let h := Math_ceil (inject_Z (row + 1) * cellSize) - Math_floor (inject_Z row * cellSize) in
  let isDarkUp := isDarkUp row col in
  let isDarkDown := isDarkDown row col in
  let isDarkLeft := isDarkLeft row col in
  let isDarkRight := isDarkRight row col in
  [SetFillStyle fgColor; BeginPath]
  ++ (if negb isDarkUp && negb isDarkLeft
      then [MoveTo (x + radius) y] else [MoveTo x y])
  ++ (if negb isDarkUp && negb isDarkRight
      then [LineTo (x + w - radius) y; QuadraticCurveTo (x + w) y (x + w) (y + radius)]
      else [LineTo (x + w) y])
  ++ (if negb isDarkRight && negb isDarkDown
      then [LineTo (x + w) (y + h - radius);
            QuadraticCurveTo (x + w) (y + h) (x + w - radius) (y + h)]
      else [LineTo (x + w) (y + h)])
  ++ (if negb isDarkDown && negb isDarkLeft
      then [LineTo (x + radius) (y + h); QuadraticCurveTo x (y + h) x (y + h - radius)]
      else [LineTo x (y + h)])
  ++ (if negb isDarkLeft && negb isDarkUp
      then [LineTo x (y + radius); QuadraticCurveTo x y (x + radius) y]
      else [LineTo x y])
  ++ [ClosePath; Fill].

(** squares (the final [else]) *)
Definition paintSquare (row_3 col_3 : Z) : list CanvasOp :=
  let w := Math_ceil (inject_Z (col_3 + 1) * cellSize) - Math_floor (inject_Z col_3 * cellSize) in
  let h := Math_ceil (inject_Z (row_3 + 1) * cellSize) - Math_floor (inject_Z row_3 * cellSize) in
  [SetFillStyle fgColor;
   FillRect (Math_round (inject_Z col_3 * cellSize) + offset)
            (Math_round (inject_Z row_3 * cellSize) + offset) w h].

(** [qrStyle === name]; an unset style equals no name. *)
Definition styleIs (qrStyle : option string) (name : string) : bool :=
  match qrStyle with
  | Some s => String.eqb s name
  | None => false
  end.

(** The [if / else if] chain over [qrStyle]. *)
Definition paintModules (qrStyle : option string)
    (positioningZones : list ICoordinates.t) : list CanvasOp :=
  if styleIs qrStyle "hearts" then
    SetFillStyle fgColor :: forEachModule qrCode positioningZones paintHeart
  else if styleIs qrStyle "stars" then
    SetFillStyle fgColor :: forEachModule qrCode positioningZones paintStar
  else if styleIs qrStyle "diamonds" then
    SetFillStyle fgColor :: forEachModule qrCode positioningZones paintDiamond
  else if styleIs qrStyle "octagons" then
    SetFillStyle fgColor :: forEachModule qrCode positioningZones (paintPolygon 8)
  else if styleIs qrStyle "pentagons" then
    SetFillStyle fgColor :: forEachModule qrCode positioningZones (paintPolygon 5)
  else if styleIs qrStyle "triangles" then
    SetFillStyle fgColor :: forEachModule qrCode positioningZones (paintPolygon 3)
  else if styleIs qrStyle "dots" then
    SetFillStyle fgColor :: forEachModule qrCode positioningZones paintDot
  else if styleIs qrStyle "fluid" then
    forEachModule qrCode positioningZones paintFluid
  else
    forEachModule qrCode positioningZones paintSquare.

End Styles.

(** ** Properties and environment *)

Inductive ECLevel := EC_L | EC_M | EC_Q | EC_H.

Record IProps := {
  value : string;
  ecLevel : ECLevel;
  enableCORS : bool;
  size : Q;
  quietZone : Q;
  bgColor : string;
  fgColor : string;
  logoImage : option string;
  logoWidth : option Q;
  logoHeight : option Q;
  logoOpacity : Q;
  logoOnLoad : bool;                      (* whether a callback is given *)
  removeQrCodeBehindLogo : bool;
  logoPadding : option Q;
  logoPaddingStyle : string;
  eyeRadius : EyeRadiusProp;
  eyeColor : option EyeColorProp;
  qrStyle : option string
}.

(** What [update] takes from outside the properties: the encoder
    ([qrGenerator(0, ecLevel)], [addData(utf16to8(value))], [make()]) and
    [window.devicePixelRatio]. *)
Record Env := {
  math : MathLib;
  qrGenerator : ECLevel -> string -> QRCodeModel;
  devicePixelRatio : Q
}.

(** [this.props.x ? +this.props.x : 0] *)
Definition numberOrZero (x : option Q) : Q :=
  match x with
  | Some v => if truthy v then v else 0
  | None => 0
  end.

(** ** The eye loop of [update] *)

(** [!eyeColor]: unset, or the empty string. *)
Definition eyeColorFalsy (eyeColor : option EyeColorProp) : bool :=
  match eyeColor with
  | None => true
  | Some (EyeColorSingle (EyeColorString c)) => negb (truthyStr c)
  | Some _ => false
  end.

(** The radii handed to [drawPositioningPattern] for eye [i]. *)
Definition eyeRadii (eyeRadius : EyeRadiusProp) (i : nat) : option CornerRadii :=
  let radii :=
    match eyeRadius with
    | EyeRadiusArray l => nth_error l i
    | EyeRadiusNumber r => Some (CornerRadiiPlain (RadiiNumber r))
    | EyeRadiusObject inner outer => Some (InnerOuterRadii inner outer)
    end in
  match radii with
  | Some (CornerRadiiPlain (RadiiNumber r)) =>
      Some (CornerRadiiPlain (RadiiArray [r; r; r; r]))
  | other => other
  end.

(** The colour handed to [drawPositioningPattern] for eye [i]. *)
Definition eyeColorFor (eyeColor : option EyeColorProp) (fgColor : string)
    (i : nat) : option EyeColor :=
  if eyeColorFalsy eyeColor then
    (* if not specified, eye color is the same as foreground *)
    Some (EyeColorString fgColor)
  else
    match eyeColor with
    | Some (EyeColorArray l) =>
        match nth_error l i with
        | Some entry => entry
        | None => None
        end
    | Some (EyeColorSingle c) => Some c
    | None => None
    end.

Definition zoneAt (positioningZones : list ICoordinates.t) (i : nat) : ICoordinates.t :=
  nth i positioningZones {| ICoordinates.row := 0; ICoordinates.col := 0 |}.

(** The [drawRoundedSquare] calls of eye [i], or the exception. *)
Definition eyeCalls (cellSize offset : Q) (positioningZones : list ICoordinates.t)
    (eyeRadius : EyeRadiusProp) (eyeColor : option EyeColorProp)
    (fgColor : string) (i : nat) : JsError + list RoundedSquareCall :=
  let zone := zoneAt positioningZones i in
  positioningPatternCalls cellSize offset
    (ICoordinates.row zone) (ICoordinates.col zone)
    (eyeColorFor eyeColor fgColor i) (eyeRadii eyeRadius i).

(** One iteration of [for (let i = 0; i < 3; i++)]. *)
Definition drawEye (cellSize offset : Q) (positioningZones : list ICoordinates.t)
    (eyeRadius : EyeRadiusProp) (eyeColor : option EyeColorProp)
    (fgColor : string) (i : nat) : Draw :=
  let zone := zoneAt positioningZones i in
  drawPositioningPattern cellSize offset
    (ICoordinates.row zone) (ICoordinates.col zone)
    (eyeColorFor eyeColor fgColor i) (eyeRadii eyeRadius i).

Fixpoint forEach (indices : list nat) (body : nat -> Draw) : Draw :=
  match indices with
  | [] => done []
  | i :: rest => andThen (body i) (forEach rest body)
  end.

Definition drawEyes (cellSize offset : Q) (positioningZones : list ICoordinates.t)
    (eyeRadius : EyeRadiusProp) (eyeColor : option EyeColorProp)
    (fgColor : string) : Draw :=
  forEach (seq 0 3)
          (drawEye cellSize offset positioningZones eyeRadius eyeColor fgColor).

(** ** The logo overlay ([image.onload]) *)

Definition logoOverlay (env : Env) (p : IProps) : list CanvasOp :=
  let size := size p in
  let offset := quietZone p in
  let logoWidth := numberOrZero (logoWidth p) in
  let logoHeight := numberOrZero (logoHeight p) in
  let logoPadding := numberOrZero (logoPadding p) in
  let bgColor := bgColor p in
  let dWidthLogo := orElse logoWidth (size * (2 # 10)) in
  let dHeightLogo := orElse logoHeight dWidthLogo in
  let dxLogo := (size - dWidthLogo) / 2 in
  let dyLogo := (size - dHeightLogo) / 2 in
  [Save]
  ++ (if removeQrCodeBehindLogo p || truthy logoPadding then
        let dWidthLogoPadding := dWidthLogo + 2 * logoPadding in
        let dHeightLogoPadding := dHeightLogo + 2 * logoPadding in
        let dxLogoPadding := dxLogo + offset - logoPadding in
        let dyLogoPadding := dyLogo + offset - logoPadding in
        [BeginPath; SetStrokeStyle bgColor; SetFillStyle bgColor]
        ++ (if String.eqb (logoPaddingStyle p) "circle" then
              let dxCenterLogoPadding := dxLogoPadding + dWidthLogoPadding / 2 in
              let dyCenterLogoPadding := dyLogoPadding + dHeightLogoPadding / 2 in
              [Ellipse dxCenterLogoPadding dyCenterLogoPadding
                       (dWidthLogoPadding / 2) (dHeightLogoPadding / 2)
                       0 0 (2 * Math_PI (math env));
               Stroke; Fill]
            else
              [FillRect dxLogoPadding dyLogoPadding dWidthLogoPadding dHeightLogoPadding])
      else [])
  ++ [SetGlobalAlpha (logoOpacity p);
      DrawImage (match logoImage p with Some src => src | None => "" end)
                (dxLogo + offset) (dyLogo + offset) dWidthLogo dHeightLogo;
      Restore]
  ++ (if logoOnLoad p then [InvokeLogoOnLoad] else []).

(** ** update *)

(** The three finder zones for a grid of [length] modules. *)
Definition positioningZonesOf (length : Z) : list ICoordinates.t :=
  [ {| ICoordinates.row := 0; ICoordinates.col := 0 |};
    {| ICoordinates.row := 0; ICoordinates.col := length - 7 |};
    {| ICoordinates.row := length - 7; ICoordinates.col := 0 |} ].

(** The part of [update] that runs before it returns: canvas set-up,
    background, modules, eyes. *)
Definition syncPaint (env : Env) (p : IProps) : Draw :=
  let size := size p in
  let quietZone := quietZone p in
  let qrCode := qrGenerator env (ecLevel p) (value p) in
  let canvasSize := size + 2 * quietZone in
  let length := getModuleCount qrCode in
  let cellSize := size / inject_Z length in
  let scale := orElse (devicePixelRatio env) 1 in
  let offset := quietZone in
  let positioningZones := positioningZonesOf length in
  andThen
    (done ([ResizeCanvas (canvasSize * scale) (canvasSize * scale);
            Scale scale scale;
            SetFillStyle (bgColor p);
            FillRect 0 0 canvasSize canvasSize;
            SetStrokeStyle (fgColor p)]
           ++ paintModules (math env) qrCode cellSize offset (fgColor p)
                           (qrStyle p) positioningZones))
    (drawEyes cellSize offset positioningZones (eyeRadius p) (eyeColor p) (fgColor p)).

(** The image request issued at the end of [update]; [onload] is what the
    handler paints when the image has loaded. *)
Record ImageLoad := {
  src : string;
  crossOrigin : option string;
  onload : list CanvasOp
}.

Record UpdateResult := {
  painted : Draw;
  imageLoad : option ImageLoad
}.

Definition update (env : Env) (p : IProps) : UpdateResult :=
  let painted := syncPaint env p in
  {| painted := painted;
     imageLoad :=
       match thrown painted, logoImage p with
       | None, Some image =>
         if truthyStr image then
           Some {| src := image;
                   crossOrigin := if enableCORS p then Some "Anonymous"%string else None;
                   onload := logoOverlay env p |}
         else None
       | _, _ => None
       end |}.

(** ** Machine arithmetic *)

(** The four arithmetic operations on JavaScript numbers.  A finite double
    is a rational, and an operation returns the double nearest to the exact
    result, so its value is a function of the values of its operands;
    [Math.round], [Math.ceil], [Math.floor] and the conversion of a loop
    index are exact on doubles.  The module painters are written a second
    time below over an arbitrary [Arith], operation by operation as in the
    source; what holds of them for every [Arith] holds of the doubles that
    the program computes with (NaN and the infinities aside). *)
Record Arith := {
  fadd : Q -> Q -> Q;
  fsub : Q -> Q -> Q;
  fmul : Q -> Q -> Q;
  fdiv : Q -> Q -> Q
}.

(** Arithmetic without rounding error: the operations of [Q]. *)
Definition exact : Arith :=
  {| fadd := Qplus; fsub := Qminus; fmul := Qmult; fdiv := Qdiv |}.

(** [m * 2 ^ e]. *)
Definition scaleBy2 (m e : Z) : Q :=
  if (0 <=? e)%Z then inject_Z (m * 2 ^ e) else Qmake m (Z.to_pos (2 ^ (- e))).

(** The integer [k] with [2 ^ k <= a / d < 2 ^ (k + 1)], for positive [a]
    and [d]. *)
Definition floorLog2 (a d : Z) : Z :=
  let k := (Z.log2 a - Z.log2 d)%Z in
  if (0 <=? k)%Z
  then (if (d * 2 ^ k <=? a)%Z then k else k - 1)%Z
  else (if (d <=? a * 2 ^ (- k))%Z then k else k - 1)%Z.

(** The integer nearest to [a / d], a tie going to the even one, for
    [0 <= a] and [0 < d]. *)
Definition nearestEven (a d : Z) : Z :=
  let q := (a / d)%Z in
  let r := (a mod d)%Z in
  if (2 * r <? d)%Z then q
  else if (d <? 2 * r)%Z then (q + 1)%Z
  else if Z.even q then q else (q + 1)%Z.

(** Rounding to the nearest number with a significand of 53 bits, ties to
    even: the rounding of IEEE 754 binary64 on its normal range (the
    exponent is not bounded here: no overflow to Infinity and no
    subnormals). *)
Definition fl64 (x : Q) : Q :=
  let n := Qnum x in
  let d := Zpos (Qden x) in
  if (n =? 0)%Z then 0
  else
    let a := Z.abs n in
    let e := (floorLog2 a d - 52)%Z in
    let m := if (0 <=? e)%Z then nearestEven a (d * 2 ^ e)
             else nearestEven (a * 2 ^ (- e)) d in
    Qred (scaleBy2 (Z.sgn n * m) e).

(** The arithmetic of doubles: each operation is the exact one followed by
    the rounding (a division by zero is not modelled). *)
Definition binary64 : Arith :=
  {| fadd := fun x y => fl64 (x + y);
     fsub := fun x y => fl64 (x - y);
     fmul := fun x y => fl64 (x * y);
     fdiv := fun x y => fl64 (x / y) |}.

(** [a + b + c] is computed without rounding error. *)
Definition addsExactly (A : Arith) (a b c : Q) : Prop :=
  fadd A (fadd A a b) c == a + b + c.

(** ** The style branches over a machine arithmetic *)

Section StylesIn.

Variable A : Arith.
Variable M : MathLib.
Variable qrCode : QRCodeModel.
Variables cellSize offset : Q.
Variable fgColor : string.

Local Infix "[+]" := (fadd A) (at level 50, left associativity).
Local Infix "[-]" := (fsub A) (at level 50, left associativity).
Local Infix "[*]" := (fmul A) (at level 40, left associativity).
Local Infix "[/]" := (fdiv A) (at level 40, left associativity).

(** hearts *)
Definition heartShapeIn (centerX centerY : Q) : list CanvasOp :=
  let radius := cellSize [/] 4 in
  [BeginPath;
   MoveTo centerX (centerY [+] radius);
   BezierCurveTo (centerX [+] radius) (centerY [+] radius [/] (3 # 2))
                 (centerX [+] radius [*] 2) (centerY [-] radius [/] 3)
                 centerX (centerY [-] radius [*] 2);
   BezierCurveTo (centerX [-] radius [*] 2) (centerY [-] radius [/] 3)
                 (centerX [-] radius) (centerY [+] radius [/] (3 # 2))
                 centerX (centerY [+] radius);
   ClosePath; Fill].

Definition paintHeartIn (row col : Z) : list CanvasOp :=
  let centerX := Math_round (inject_Z col [*] cellSize) [+] cellSize [/] 2 [+] offset in
  let centerY := Math_round (inject_Z row [*] cellSize) [+] cellSize [/] 2 [+] offset in
  heartShapeIn centerX centerY.

(** stars *)
Definition starShapeIn (centerX centerY : Q) : list CanvasOp :=
  let starPoints := 5%nat in
  let outerRadius := cellSize [/] 2 in
  let innerRadius := outerRadius [/] 2 in
  let angle := Math_PI M [/] 5 in
  [BeginPath]
  ++ map (fun i =>
            let radius := if Nat.even i then outerRadius else innerRadius in
            let x := centerX [+] radius [*] Math_cos M (ofNat i [*] angle) in
            let y := centerY [-] radius [*] Math_sin M (ofNat i [*] angle) in
            vertexOp i x y)
         (seq 0 (2 * starPoints))
  ++ [ClosePath; Fill].

Definition paintStarIn (row col : Z) : list CanvasOp :=
  let centerX := Math_round (inject_Z col [*] cellSize) [+] cellSize [/] 2 [+] offset in
  let centerY := Math_round (inject_Z row [*] cellSize) [+] cellSize [/] 2 [+] offset in
  starShapeIn centerX centerY.

(** diamonds *)
Definition diamondShapeIn (centerX centerY : Q) : list CanvasOp :=
  let halfCellSize := cellSize [/] 2 in
  [BeginPath;
   MoveTo centerX (centerY [-] halfCellSize);
   LineTo (centerX [+] halfCellSize) centerY;
   LineTo centerX (centerY [+] halfCellSize);
   LineTo (centerX [-] halfCellSize) centerY;
   ClosePath; Fill].

Definition paintDiamondIn (row col : Z) : list CanvasOp :=
  let halfCellSize := cellSize [/] 2 in
  let centerX := Math_round (inject_Z col [*] cellSize) [+] halfCellSize [+] offset in
  let centerY := Math_round (inject_Z row [*] cellSize) [+] halfCellSize [+] offset in
  diamondShapeIn centerX centerY.

(** octagons, pentagons, triangles *)
Definition polygonShapeIn (numSides : nat) (centerX centerY : Q) : list CanvasOp :=
  let radius := cellSize [/] 2 in
  let angleStep := (2 [*] Math_PI M) [/] ofNat numSides in
  [BeginPath]
  ++ map (fun i =>
            let x := centerX [+] radius [*] Math_cos M (ofNat i [*] angleStep) in
            let y := centerY [+] radius [*] Math_sin M (ofNat i [*] angleStep) in
            vertexOp i x y)
         (seq 0 numSides)
  ++ [ClosePath; Fill].

Definition paintPolygonIn (numSides : nat) (row col : Z) : list CanvasOp :=
  let radius := cellSize [/] 2 in
  let centerX := Math_round (inject_Z col [*] cellSize) [+] radius [+] offset in
  let centerY := Math_round (inject_Z row [*] cellSize) [+] radius [+] offset in
  polygonShapeIn numSides centerX centerY.

(** dots *)
Definition dotShapeIn (centerX centerY : Q) : list CanvasOp :=
  let radius := cellSize [/] 2 in
  [BeginPath;
   Arc centerX centerY ((radius [/] 100) [*] 75) 0 (2 [*] Math_PI M) false;
   ClosePath; Fill].

Definition paintDotIn (row col : Z) : list CanvasOp :=
  let radius := cellSize [/] 2 in
  dotShapeIn (Math_round (inject_Z col [*] cellSize) [+] radius [+] offset)
             (Math_round (inject_Z row [*] cellSize) [+] radius [+] offset).

(** fluid: the body of the [if], from [ctx.fillStyle = fgColor] on, given
    the values of the four neighbour tests. *)
Definition fluidPathIn (row col : Z)
    (isDarkUp isDarkDown isDarkLeft isDarkRight : bool) : list CanvasOp :=
  let radius := cellSize [/] (3 # 2) in
  let x := Math_round (inject_Z col [*] cellSize) [+] offset in
  let y := Math_round (inject_Z row [*] cellSize) [+] offset in
  let w := Math_ceil (inject_Z (col + 1) [*] cellSize) [-] Math_floor (inject_Z col [*] cellSize) in
  let h := Math_ceil (inject_Z (row + 1) [*] cellSize) [-] Math_floor (inject_Z row [*] cellSize) in
  [SetFillStyle fgColor; BeginPath]
  ++ (if negb isDarkUp && negb isDarkLeft
      then [MoveTo (x [+] radius) y] else [MoveTo x y])
  ++ (if negb isDarkUp && negb isDarkRight
      then [LineTo (x [+] w [-] radius) y; QuadraticCurveTo (x [+] w) y (x [+] w) (y [+] radius)]
      else [LineTo (x [+] w) y])
  ++ (if negb isDarkRight && negb isDarkDown
      then [LineTo (x [+] w) (y [+] h [-] radius);
            QuadraticCurveTo (x [+] w) (y [+] h) (x [+] w [-] radius) (y [+] h)]
      else [LineTo (x [+] w) (y [+] h)])
  ++ (if negb isDarkDown && negb isDarkLeft
      then [LineTo (x [+] radius) (y [+] h); QuadraticCurveTo x (y [+] h) x (y [+] h [-] radius)]
      else [LineTo x (y [+] h)])
  ++ (if negb isDarkLeft && negb isDarkUp
      then [LineTo x (y [+] radius); QuadraticCurveTo x y (x [+] radius) y]
      else [LineTo x y])
  ++ [ClosePath; Fill].

Definition paintFluidIn (row col : Z) : list CanvasOp :=
  fluidPathIn row col (isDarkUp qrCode row col) (isDarkDown qrCode row col)
              (isDarkLeft qrCode row col) (isDarkRight qrCode row col).

(** squares (the final [else]) *)
Definition paintSquareIn (row_3 col_3 : Z) : list CanvasOp :=
  let w := Math_ceil (inject_Z (col_3 + 1) [*] cellSize) [-] Math_floor (inject_Z col_3 [*] cellSize) in
  let h := Math_ceil (inject_Z (row_3 + 1) [*] cellSize) [-] Math_floor (inject_Z row_3 [*] cellSize) in
  [SetFillStyle fgColor;
   FillRect (Math_round (inject_Z col_3 [*] cellSize) [+] offset)
            (Math_round (inject_Z row_3 [*] cellSize) [+] offset) w h].

(** The [if / else if] chain over [qrStyle]. *)
Definition paintModulesIn (qrStyle : option string)
    (positioningZones : list ICoordinates.t) : list CanvasOp :=
  if styleIs qrStyle "hearts" then
    SetFillStyle fgColor :: forEachModule qrCode positioningZones paintHeartIn
  else if styleIs qrStyle "stars" then
    SetFillStyle fgColor :: forEachModule qrCode positioningZones paintStarIn
  else if styleIs qrStyle "diamonds" then
    SetFillStyle fgColor :: forEachModule qrCode positioningZones paintDiamondIn
  else if styleIs qrStyle "octagons" then
    SetFillStyle fgColor :: forEachModule qrCode positioningZones (paintPolygonIn 8)
  else if styleIs qrStyle "pentagons" then
    SetFillStyle fgColor :: forEachModule qrCode positioningZones (paintPolygonIn 5)
  else if styleIs qrStyle "triangles" then
    SetFillStyle fgColor :: forEachModule qrCode positioningZones (paintPolygonIn 3)
  else if styleIs qrStyle "dots" then
    SetFillStyle fgColor :: forEachModule qrCode positioningZones paintDotIn
  else if styleIs qrStyle "fluid" then
    forEachModule qrCode positioningZones paintFluidIn
  else
    forEachModule qrCode positioningZones paintSquareIn.

(** The body that the branch selected by [qrStyle] runs for a painted cell. *)
Definition paintCellIn (qrStyle : option string) : Z -> Z -> list CanvasOp :=
  if styleIs qrStyle "hearts" then paintHeartIn
  else if styleIs qrStyle "stars" then paintStarIn
  else if styleIs qrStyle "diamonds" then paintDiamondIn
  else if styleIs qrStyle "octagons" then paintPolygonIn 8
  else if styleIs qrStyle "pentagons" then paintPolygonIn 5
  else if styleIs qrStyle "triangles" then paintPolygonIn 3
  else if styleIs qrStyle "dots" then paintDotIn
  else if styleIs qrStyle "fluid" then paintFluidIn
  else paintSquareIn.

(** The path that the branch of a shape style draws around a centre, once
    [centerX] and [centerY] are computed. *)
Definition shapeAroundIn (qrStyle : option string) (centerX centerY : Q) : list CanvasOp :=
  if styleIs qrStyle "hearts" then heartShapeIn centerX centerY
  else if styleIs qrStyle "stars" then starShapeIn centerX centerY
  else if styleIs qrStyle "diamonds" then diamondShapeIn centerX centerY
  else if styleIs qrStyle "octagons" then polygonShapeIn 8 centerX centerY
  else if styleIs qrStyle "pentagons" then polygonShapeIn 5 centerX centerY
  else if styleIs qrStyle "triangles" then polygonShapeIn 3 centerX centerY
  else if styleIs qrStyle "dots" then dotShapeIn centerX centerY
  else [].

End StylesIn.

(** The module part of [update]: [cellSize], [offset], the finder zones and
    the style chain, computed in the arithmetic [A]. *)
Definition moduleRenderer (A : Arith) (env : Env) (p : IProps) : list CanvasOp :=
  let qrCode := qrGenerator env (ecLevel p) (value p) in
  let length := getModuleCount qrCode in
  let cellSize := fdiv A (size p) (inject_Z length) in
  let offset := quietZone p in
  let positioningZones := positioningZonesOf length in
  paintModulesIn A (math env) qrCode cellSize offset (fgColor p) (qrStyle p)
                 positioningZones.

(** ** The module loops with the encoder's bounds check *)

(** [qrCode.isDark(row, col)] as the encoder has it: the call throws when
    [row] or [col] is outside the grid ([None]). *)
Definition isDarkChecked (qrCode : QRCodeModel) (row col : Z) : option bool :=
  if ((0 <=? row) && (row <? getModuleCount qrCode) &&
      (0 <=? col) && (col <? getModuleCount qrCode))%Z
  then Some (isDark qrCode row col)
  else None.

(** [a && b()]: the right operand is evaluated only when the left one is
    true. *)
Definition andAlso (a : bool) (b : option bool) : option bool :=
  if a then b else Some false.

(** A [for] loop whose body may throw: the bodies run in order, and the
    first exception ends the loop. *)
Fixpoint forLoop {T : Type} (indices : list Z) (body : Z -> option (list T))
    : option (list T) :=
  match indices with
  | [] => Some []
  | i :: rest =>
      match body i with
      | None => None
      | Some l =>
          match forLoop rest body with
          | None => None
          | Some l' => Some (l ++ l')
          end
      end
  end.

(** The loop nest of every style branch, with the checked read. *)
Definition forEachModuleChecked {T : Type} (qrCode : QRCodeModel)
    (positioningZones : list ICoordinates.t) (paint : Z -> Z -> option (list T))
    : option (list T) :=
  let length := getModuleCount qrCode in
  forLoop (range length) (fun row =>
    forLoop (range length) (fun col =>
      match isDarkChecked qrCode row col with
      | None => None
      | Some dark =>
          if dark && negb (isInPositioninZone row col positioningZones)
          then paint row col
          else Some []
      end)).

(** The fluid branch's body: the four neighbour reads behind their bounds
    tests, in the order of the source. *)
Definition paintFluidChecked (A : Arith) (qrCode : QRCodeModel) (cellSize offset : Q)
    (fgColor : string) (row col : Z) : option (list CanvasOp) :=
  let length := getModuleCount qrCode in
  match andAlso (0 <? row)%Z (isDarkChecked qrCode (row - 1) col) with
  | None => None
  | Some isDarkUp =>
  match andAlso (row <? length - 1)%Z (isDarkChecked qrCode (row + 1) col) with
  | None => None
  | Some isDarkDown =>
  match andAlso (0 <? col)%Z (isDarkChecked qrCode row (col - 1)) with
  | None => None
  | Some isDarkLeft =>
  match andAlso (col <? length - 1)%Z (isDarkChecked qrCode row (col + 1)) with
  | None => None
  | Some isDarkRight =>
      Some (fluidPathIn A cellSize offset fgColor row col
              isDarkUp isDarkDown isDarkLeft isDarkRight)
  end end end end.

(** The style chain with the checked reads; [None] when a read throws. *)
Definition paintModulesChecked (A : Arith) (M : MathLib) (qrCode : QRCodeModel)
    (cellSize offset : Q) (fgColor : string) (qrStyle : option string)
    (positioningZones : list ICoordinates.t) : option (list CanvasOp) :=
  let prelude (l : option (list CanvasOp)) :=
    match l with
    | Some ops => Some (SetFillStyle fgColor :: ops)
    | None => None
    end in
  let loops (paint : Z -> Z -> list CanvasOp) :=
    forEachModuleChecked qrCode positioningZones (fun row col => Some (paint row col)) in
  if styleIs qrStyle "hearts" then prelude (loops (paintHeartIn A cellSize offset))
  else if styleIs qrStyle "stars" then prelude (loops (paintStarIn A M cellSize offset))
  else if styleIs qrStyle "diamonds" then prelude (loops (paintDiamondIn A cellSize offset))
  else if styleIs qrStyle "octagons" then prelude (loops (paintPolygonIn A M cellSize offset 8))
  else if styleIs qrStyle "pentagons" then prelude (loops (paintPolygonIn A M cellSize offset 5))
  else if styleIs qrStyle "triangles" then prelude (loops (paintPolygonIn A M cellSize offset 3))
  else if styleIs qrStyle "dots" then prelude (loops (paintDotIn A M cellSize offset))
  else if styleIs qrStyle "fluid" then
    forEachModuleChecked qrCode positioningZones
      (paintFluidChecked A qrCode cellSize offset fgColor)
  else loops (paintSquareIn A cellSize offset fgColor).

(** ** Sample data *)

(** A grid of [n] by [n] modules, all dark. *)
Definition allDark (n : Z) : QRCodeModel :=
  {| getModuleCount := n; isDark := fun _ _ => true |}.

(** A grid with a single dark module. *)
Definition singleDark (n r c : Z) : QRCodeModel :=
  {| getModuleCount := n;
     isDark := fun row col => (row =? r)%Z && (col =? c)%Z |}.

(** A stand-in for [Math]: any rational-valued functions do. *)
Definition sampleMath : MathLib :=
  {| Math_PI := 355 # 113; Math_cos := fun _ => 1; Math_sin := fun _ => 0 |}.


Definition sampleEnv (qrCode : QRCodeModel) : Env :=
  {| math := sampleMath; qrGenerator := fun _ _ => qrCode; devicePixelRatio := 1 |}.

(** [QRCode.defaultProps]. *)
Definition defaultProps : IProps :=
  {| value := "https://reactjs.org/";
     ecLevel := EC_M;
     enableCORS := false;
     size := 150;
     quietZone := 10;
     bgColor := "#FFFFFF";
     fgColor := "#000000";
     logoImage := None;
     logoWidth := None;
     logoHeight := None;
     logoOpacity := 1;
     logoOnLoad := false;
     removeQrCodeBehindLogo := false;
     logoPadding := None;
     logoPaddingStyle := "square";
     eyeRadius := EyeRadiusArray [CornerRadiiPlain (RadiiNumber 0);
                                  CornerRadiiPlain (RadiiNumber 0);
                                  CornerRadiiPlain (RadiiNumber 0)];
     eyeColor := None;
     qrStyle := Some "squares"%string |}.

(** ** The finder zones of the specification *)

(** Membership of [(row, col)] in the 7 by 7 block anchored at [(r0, c0)]. *)
Definition inBlock7 (r0 c0 row col : Z) : bool :=
  (r0 <=? row)%Z && (row <? r0 + 7)%Z && (c0 <=? col)%Z && (col <? c0 + 7)%Z.

(** The three 7 by 7 finder zones anchored at (0,0), (0,N-7) and (N-7,0). *)
Definition inFinderZone (N row col : Z) : bool :=
  inBlock7 0 0 row col || inBlock7 0 (N - 7) row col || inBlock7 (N - 7) 0 row col.

(** Membership in the block of rows [r0 .. r0+7] and columns [c0 .. c0+7]. *)
Definition inBlock8 (r0 c0 row col : Z) : bool :=
  (r0 <=? row)%Z && (row <=? r0 + 7)%Z && (c0 <=? col)%Z && (col <=? c0 + 7)%Z.

Definition inExclusionZone (N row col : Z) : bool :=
  inBlock8 0 0 row col || inBlock8 0 (N - 7) row col || inBlock8 (N - 7) 0 row col.

(** ** The separators *)

(** The separator of a finder pattern: the line of modules, one module
    wide, between the 7 by 7 pattern and the rest of the symbol.  A QR
    encoder leaves these modules light (qrcode-generator writes each finder
    pattern together with this border). *)
Definition isSeparator (N row col : Z) : bool :=
  ((row =? 7) && (0 <=? col) && (col <=? 7))%Z
  || ((col =? 7) && (0 <=? row) && (row <=? 7))%Z
  || ((row =? 7) && (N - 8 <=? col) && (col <? N))%Z
  || ((col =? N - 8) && (0 <=? row) && (row <=? 7))%Z
  || ((col =? 7) && (N - 8 <=? row) && (row <? N))%Z
  || ((row =? N - 8) && (0 <=? col) && (col <=? 7))%Z.

(** The encoder invariant: every separator module is light. *)
Definition separatorsLight (qrCode : QRCodeModel) : Prop :=
  forall row col,
    isSeparator (getModuleCount qrCode) row col = true ->
    isDark qrCode row col = false.

(** A grid whose modules are all dark except the separators. *)
Definition darkButSeparators (n : Z) : QRCodeModel :=
  {| getModuleCount := n; isDark := fun row col => negb (isSeparator n row col) |}.

(** ** Reading a paint *)

(** [sub] occurs in [l] as a run of consecutive operations. *)
Definition issues (l sub : list CanvasOp) : Prop :=
  exists before after, l = before ++ sub ++ after.

(** The names the style chain of [update] tests for. *)
Definition shapeStyles : list string :=
  ["hearts"; "stars"; "diamonds"; "octagons"; "pentagons"; "triangles"; "dots"]%string.

(** The body that the branch selected by [qrStyle] runs for a painted cell. *)
Definition paintCell (M : MathLib) (qrCode : QRCodeModel) (cellSize offset : Q)
    (fgColor : string) (qrStyle : option string) : Z -> Z -> list CanvasOp :=
  if styleIs qrStyle "hearts" then paintHeart cellSize offset
  else if styleIs qrStyle "stars" then paintStar M cellSize offset
  else if styleIs qrStyle "diamonds" then paintDiamond cellSize offset
  else if styleIs qrStyle "octagons" then paintPolygon M cellSize offset 8
  else if styleIs qrStyle "pentagons" then paintPolygon M cellSize offset 5
  else if styleIs qrStyle "triangles" then paintPolygon M cellSize offset 3
  else if styleIs qrStyle "dots" then paintDot M cellSize offset
  else if styleIs qrStyle "fluid" then paintFluid qrCode cellSize offset fgColor
  else paintSquare cellSize offset fgColor.

(** What the selected branch does before its loops. *)
Definition stylePrelude (fgColor : string) (qrStyle : option string) : list CanvasOp :=
  if existsb (styleIs qrStyle) shapeStyles then [SetFillStyle fgColor] else [].

(** ** The fluid style in the words of the specification *)

Inductive Corner := TopLeft | TopRight | BottomRight | BottomLeft.

(** A neighbour counts as dark when it is a dark module of the grid; a
    cell outside the grid counts as light. *)
Definition darkNeighbor (qrCode : QRCodeModel) (row col : Z) : bool :=
  (0 <=? row)%Z && (row <? getModuleCount qrCode)%Z &&
  (0 <=? col)%Z && (col <? getModuleCount qrCode)%Z &&
  isDark qrCode row col.

(** Both edge neighbours adjacent to the corner are light. *)
Definition cornerFree (qrCode : QRCodeModel) (row col : Z) (c : Corner) : bool :=
  match c with
  | TopLeft =>
      negb (darkNeighbor qrCode (row - 1) col) && negb (darkNeighbor qrCode row (col - 1))
  | TopRight =>
      negb (darkNeighbor qrCode (row - 1) col) && negb (darkNeighbor qrCode row (col + 1))
  | BottomRight =>
      negb (darkNeighbor qrCode (row + 1) col) && negb (darkNeighbor qrCode row (col + 1))
  | BottomLeft =>
      negb (darkNeighbor qrCode (row + 1) col) && negb (darkNeighbor qrCode row (col - 1))
  end.

(** The corners of the rectangle with top-left corner [(x, y)], width [w]
    and height [h]. *)
Definition cornerPoint (x y w h : Q) (c : Corner) : Q * Q :=
  match c with
  | TopLeft => (x, y)
  | TopRight => (x + w, y)
  | BottomRight => (x + w, y + h)
  | BottomLeft => (x, y + h)
  end.

(** Going clockwise, the point at distance [r] before the corner and the
    point at distance [r] after it. *)
Definition approachPoint (x y w h r : Q) (c : Corner) : Q * Q :=
  match c with
  | TopLeft => (x, y + r)
  | TopRight => (x + w - r, y)
  | BottomRight => (x + w, y + h - r)
  | BottomLeft => (x + r, y + h)
  end.

Definition leavePoint (x y w h r : Q) (c : Corner) : Q * Q :=
  match c with
  | TopLeft => (x + r, y)
  | TopRight => (x + w, y + r)
  | BottomRight => (x + w - r, y + h)
  | BottomLeft => (x, y + h - r)
  end.

(** A corner of the outline: a quadratic curve of radius [r] whose control
    point is the corner when the corner is free, the corner itself as a
    vertex otherwise. *)
Definition cornerSegment (free : bool) (x y w h r : Q) (c : Corner) : list CanvasOp :=
  if free then
    [LineTo (fst (approachPoint x y w h r c)) (snd (approachPoint x y w h r c));
     QuadraticCurveTo (fst (cornerPoint x y w h c)) (snd (cornerPoint x y w h c))
                      (fst (leavePoint x y w h r c)) (snd (leavePoint x y w h r c))]
  else
    [LineTo (fst (cornerPoint x y w h c)) (snd (cornerPoint x y w h c))].

(** The outline of a cell: start after the top-left corner, then the four
    corners clockwise from the top-right one. *)
Definition fluidOutline (free : Corner -> bool) (x y w h r : Q) : list CanvasOp :=
  [BeginPath;
   if free TopLeft
   then MoveTo (fst (leavePoint x y w h r TopLeft)) (snd (leavePoint x y w h r TopLeft))
   else MoveTo x y]
  ++ flat_map (fun c => cornerSegment (free c) x y w h r c)
              [TopRight; BottomRight; BottomLeft; TopLeft]
  ++ [ClosePath; Fill].

(** The quadratic curves of a path, each with the point it starts from. *)
Record Curve := {
  curveStart : Q * Q;
  curveControl : Q * Q;
  curveEnd : Q * Q
}.

Fixpoint curvesFrom (current : Q * Q) (path : list CanvasOp) : list Curve :=
  match path with
  | [] => []
  | MoveTo x y :: rest => curvesFrom (x, y) rest
  | LineTo x y :: rest => curvesFrom (x, y) rest
  | QuadraticCurveTo cpx cpy x y :: rest =>
      {| curveStart := current; curveControl := (cpx, cpy); curveEnd := (x, y) |}
      :: curvesFrom (x, y) rest
  | _ :: rest => curvesFrom current rest
  end.

Definition curves (path : list CanvasOp) : list Curve := curvesFrom (0, 0) path.

Definition samePoint (a b : Q * Q) : Prop :=
  fst a == fst b /\ snd a == snd b.

(** [a] lies on a horizontal or vertical line through [b], at distance [r]. *)
Definition axisDistance (a b : Q * Q) (r : Q) : Prop :=
  (fst a == fst b /\ (snd a == snd b + r \/ snd a == snd b - r)) \/
  (snd a == snd b /\ (fst a == fst b + r \/ fst a == fst b - r)).

(** The path turns the corner by a quadratic curve of radius [r]: the curve
    has the corner as control point, and starts and ends at distance [r]
    from it. *)
Definition roundedAt (path : list CanvasOp) (corner : Q * Q) (r : Q) : Prop :=
  exists c, In c (curves path) /\
            samePoint (curveControl c) corner /\
            axisDistance (curveStart c) corner r /\
            axisDistance (curveEnd c) corner r.

(** The path has the corner as a vertex and no curve around it. *)
Definition sharpAt (path : list CanvasOp) (corner : Q * Q) : Prop :=
  (exists px py, In (LineTo px py) path /\ samePoint (px, py) corner) /\
  ~ (exists c, In c (curves path) /\ samePoint (curveControl c) corner).

(** ** Reading the eyes *)

(** The four effective corner radii as a list: top-left, top-right,
    bottom-right, bottom-left. *)
Definition cornerRadiiList (size : Q) (radii : Radii) : list Q :=
  let '(rTopLeft, rTopRight, rBottomRight, rBottomLeft) := cornerRadii size radii in
  [rTopLeft; rTopRight; rBottomRight; rBottomLeft].

(** The effective radius of a corner. *)
Definition cornerRadius (size : Q) (radii : Radii) (c : Corner) : Q :=
  let '(rTopLeft, rTopRight, rBottomRight, rBottomLeft) := cornerRadii size radii in
  match c with
  | TopLeft => rTopLeft
  | TopRight => rTopRight
  | BottomRight => rBottomRight
  | BottomLeft => rBottomLeft
  end.

(** The colours of the outer ring and of the inner box of an eye. *)
Definition ringColors (calls : JsError + list RoundedSquareCall) : option (string * string) :=
  match calls with
  | inr [outerBox; innerBox] => Some (callColor outerBox, callColor innerBox)
  | _ => None
  end.


(** The properties [p] with another [size]. *)
Definition withSize (p : IProps) (s : Q) : IProps :=
  {| value := value p; ecLevel := ecLevel p; enableCORS := enableCORS p;
     size := s; quietZone := quietZone p;
     bgColor := bgColor p; fgColor := fgColor p;
     logoImage := logoImage p; logoWidth := logoWidth p; logoHeight := logoHeight p;
     logoOpacity := logoOpacity p; logoOnLoad := logoOnLoad p;
     removeQrCodeBehindLogo := removeQrCodeBehindLogo p;
     logoPadding := logoPadding p; logoPaddingStyle := logoPaddingStyle p;
     eyeRadius := eyeRadius p; eyeColor := eyeColor p; qrStyle := qrStyle p |}.

(** ** The logo options *)

(** Two configurations that differ at most in the logo options
    ([logoImage], [logoWidth], [logoHeight], [logoOpacity], [logoPadding],
    [logoPaddingStyle], [removeQrCodeBehindLogo], [enableCORS],
    [logoOnLoad]). *)
Definition sameExceptLogo (p1 p2 : IProps) : Prop :=
  value p1 = value p2 /\
  ecLevel p1 = ecLevel p2 /\
  size p1 = size p2 /\
  quietZone p1 = quietZone p2 /\
  bgColor p1 = bgColor p2 /\
  fgColor p1 = fgColor p2 /\
  eyeRadius p1 = eyeRadius p2 /\
  eyeColor p1 = eyeColor p2 /\
  qrStyle p1 = qrStyle p2.

(** Properties with other logo dimensions. *)
Definition withLogoSize (p : IProps) (width height padding : option Q) : IProps :=
  {| value := value p; ecLevel := ecLevel p; enableCORS := enableCORS p;
     size := size p; quietZone := quietZone p; bgColor := bgColor p;
     fgColor := fgColor p; logoImage := logoImage p; logoWidth := width;
     logoHeight := height; logoOpacity := logoOpacity p;
     logoOnLoad := logoOnLoad p;
     removeQrCodeBehindLogo := removeQrCodeBehindLogo p;
     logoPadding := padding; logoPaddingStyle := logoPaddingStyle p;
     eyeRadius := eyeRadius p; eyeColor := eyeColor p; qrStyle := qrStyle p |}.

(** The default properties with a logo of 30 by 30 pixels, padded by 4 in a
    circle, over a cleared background, loaded with CORS and reported. *)
Definition logoProps : IProps :=
  {| value := value defaultProps; ecLevel := ecLevel defaultProps;
     enableCORS := true;
     size := size defaultProps; quietZone := quietZone defaultProps;
     bgColor := bgColor defaultProps; fgColor := fgColor defaultProps;
     logoImage := Some "logo.png"%string;
     logoWidth := Some 30; logoHeight := Some 30; logoOpacity := 1 # 2;
     logoOnLoad := true; removeQrCodeBehindLogo := true;
     logoPadding := Some 4; logoPaddingStyle := "circle";
     eyeRadius := eyeRadius defaultProps; eyeColor := eyeColor defaultProps;
     qrStyle := qrStyle defaultProps |}.

(** The operations that clear a region behind the logo. *)
Definition clearsRegion (op : CanvasOp) : bool :=
  match op with
  | FillRect _ _ _ _ => true
  | Ellipse _ _ _ _ _ _ _ => true
  | _ => false
  end.

(** Default properties with another style, and with a logo. *)
Definition withStyle (p : IProps) (s : option string) : IProps :=
  {| value := value p; ecLevel := ecLevel p; enableCORS := enableCORS p;
     size := size p; quietZone := quietZone p; bgColor := bgColor p;
     fgColor := fgColor p; logoImage := logoImage p; logoWidth := logoWidth p;
     logoHeight := logoHeight p; logoOpacity := logoOpacity p;
     logoOnLoad := logoOnLoad p;
     removeQrCodeBehindLogo := removeQrCodeBehindLogo p;
     logoPadding := logoPadding p; logoPaddingStyle := logoPaddingStyle p;
     eyeRadius := eyeRadius p; eyeColor := eyeColor p; qrStyle := s |}.

(** ** utf16to8 *)

(** A string is the list of its UTF-16 code units, each in [0, 0xffff].
    [utf16to8Char] is the body of the loop for one unit [c]; every value
    given to [String.fromCharCode] is below 256 and is the unit itself. *)
Definition utf16to8Char (c : Z) : list Z :=
  if ((0x0001 <=? c) && (c <=? 0x007f))%Z then [c]
  else if (0x07ff <? c)%Z then
    [Z.lor 0xe0 (Z.land (Z.shiftr c 12) 0x0f);
     Z.lor 0x80 (Z.land (Z.shiftr c 6) 0x3f);
     Z.lor 0x80 (Z.land (Z.shiftr c 0) 0x3f)]
  else
    [Z.lor 0xc0 (Z.land (Z.shiftr c 6) 0x1f);
     Z.lor 0x80 (Z.land (Z.shiftr c 0) 0x3f)].

Definition utf16to8 (str : list Z) : list Z := flat_map utf16to8Char str.

(** A code unit of a JavaScript string. *)
Definition isCodeUnit (c : Z) : Prop := (0 <= c < 65536)%Z.

(** Reading the output back: one unit below 0x80, two units after a lead
    below 0xe0, three units otherwise.  It is not part of the component; it
    states that the encoding loses nothing. *)
Fixpoint utf8to16 (bytes : list Z) : option (list Z) :=
  match bytes with
  | [] => Some []
  | b0 :: rest =>
    if (b0 <? 0x80)%Z then option_map (cons b0) (utf8to16 rest)
    else if (b0 <? 0xe0)%Z then
      match rest with
      | b1 :: rest' =>
        option_map (cons (Z.lor (Z.shiftl (Z.land b0 0x1f) 6) (Z.land b1 0x3f)))
                   (utf8to16 rest')
      | [] => None
      end
    else
      match rest with
      | b1 :: b2 :: rest' =>
        option_map (cons (Z.lor (Z.shiftl (Z.land b0 0x0f) 12)
                                (Z.lor (Z.shiftl (Z.land b1 0x3f) 6) (Z.land b2 0x3f))))
                   (utf8to16 rest')
      | _ => None
      end
  end.

(** The facts about one code unit that are checked by running the encoder
    on every unit. *)
Definition unitEncodingOk (c : Z) : bool :=
  forallb (fun b => (1 <=? b)%Z && (b <=? 255)%Z) (utf16to8Char c) &&
  match utf16to8Char c with
  | [b0] => (b0 <? 0x80)%Z && (b0 =? c)%Z
  | [b0; b1] =>
      (0x80 <=? b0)%Z && (b0 <? 0xe0)%Z &&
      (Z.lor (Z.shiftl (Z.land b0 0x1f) 6) (Z.land b1 0x3f) =? c)%Z
  | [b0; b1; b2] =>
      (0xe0 <=? b0)%Z &&
      (Z.lor (Z.shiftl (Z.land b0 0x0f) 12)
             (Z.lor (Z.shiftl (Z.land b1 0x3f) 6) (Z.land b2 0x3f)) =? c)%Z
  | _ => false
  end.

(** [P] holds of every number whose binary digits above the lowest [bits]
    are those of [prefix]; the numbers are visited by halving the range. *)
Fixpoint allWithPrefix (P : Z -> bool) (bits : nat) (prefix : Z) : bool :=
  match bits with
  | O => P prefix
  | S bits' =>
      allWithPrefix P bits' (2 * prefix) && allWithPrefix P bits' (2 * prefix + 1)
  end.

(** ** Reading a path *)

(** The points an operation names: targets, and control points of curves. *)
Definition pointsOf (op : CanvasOp) : list (Q * Q) :=
  match op with
  | MoveTo x y => [(x, y)]
  | LineTo x y => [(x, y)]
  | QuadraticCurveTo cpx cpy x y => [(cpx, cpy); (x, y)]
  | BezierCurveTo cp1x cp1y cp2x cp2y x y => [(cp1x, cp1y); (cp2x, cp2y); (x, y)]
  | _ => []
  end.

(** [pt] lies in the square with top-left corner [(x0, y0)] and side [side]. *)
Definition inSquare (x0 y0 side : Q) (pt : Q * Q) : Prop :=
  x0 <= fst pt /\ fst pt <= x0 + side /\ y0 <= snd pt /\ snd pt <= y0 + side.

Definition isCurve (op : CanvasOp) : bool :=
  match op with
  | QuadraticCurveTo _ _ _ _ => true
  | _ => false
  end.

Definition isStroke (op : CanvasOp) : bool :=
  match op with
  | Stroke => true
  | _ => false
  end.

Definition isFill (op : CanvasOp) : bool :=
  match op with
  | Fill => true
  | _ => false
  end.

(** Where the path starts: the target of its first [moveTo]. *)
Fixpoint pathStart (path : list CanvasOp) : option (Q * Q) :=
  match path with
  | [] => None
  | MoveTo x y :: _ => Some (x, y)
  | _ :: rest => pathStart rest
  end.

(** Where the pen is after the last operation of the path. *)
Fixpoint penAfter (pen : option (Q * Q)) (path : list CanvasOp) : option (Q * Q) :=
  match path with
  | [] => pen
  | MoveTo x y :: rest => penAfter (Some (x, y)) rest
  | LineTo x y :: rest => penAfter (Some (x, y)) rest
  | QuadraticCurveTo _ _ x y :: rest => penAfter (Some (x, y)) rest
  | BezierCurveTo _ _ _ _ x y :: rest => penAfter (Some (x, y)) rest
  | _ :: rest => penAfter pen rest
  end.

(** The path comes back to its starting point by its own segments, so that
    [closePath] adds no edge. *)
Definition returnsToStart (path : list CanvasOp) : Prop :=
  exists s e, pathStart path = Some s /\ penAfter None path = Some e /\ samePoint e s.

(** ** Reading the run *)

Definition isSave (op : CanvasOp) : bool :=
  match op with
  | Save => true
  | _ => false
  end.

Definition isRestore (op : CanvasOp) : bool :=
  match op with
  | Restore => true
  | _ => false
  end.

(** Properties with another eye radius. *)
Definition withEyeRadius (p : IProps) (r : EyeRadiusProp) : IProps :=
  {| value := value p; ecLevel := ecLevel p; enableCORS := enableCORS p;
     size := size p; quietZone := quietZone p; bgColor := bgColor p;
     fgColor := fgColor p; logoImage := logoImage p; logoWidth := logoWidth p;
     logoHeight := logoHeight p; logoOpacity := logoOpacity p;
     logoOnLoad := logoOnLoad p;
     removeQrCodeBehindLogo := removeQrCodeBehindLogo p;
     logoPadding := logoPadding p; logoPaddingStyle := logoPaddingStyle p;
     eyeRadius := r; eyeColor := eyeColor p; qrStyle := qrStyle p |}.



(** * Properties *)

(** ** Roundings *)

Example Math_round_half_up : Math_round (5 # 2) = 3 /\ Math_round (-5 # 2) = -2.
Proof. split; reflexivity. Qed.

Example Math_round_cell_origin : Math_round (inject_Z 8 * (150 / inject_Z 21)) = 57.
Proof. reflexivity. Qed.

Example Math_ceil_floor_cell :
  Math_ceil (inject_Z 9 * (150 / inject_Z 21)) = 65 /\
  Math_floor (inject_Z 8 * (150 / inject_Z 21)) = 57.
Proof. split; reflexivity. Qed.

(** The doubles 0.1, 0.1 + 0.2 = 0.30000000000000004,
    150 / 33 = 4.545454545454546 and 11 * (150 / 33) = 50.00000000000001. *)
Example binary64_samples :
  fl64 (1 # 10) = 3602879701896397 # 36028797018963968 /\
  fadd binary64 (fl64 (1 # 10)) (fl64 (2 # 10)) = 1351079888211149 # 4503599627370496 /\
  fdiv binary64 150 33 = 5117726849284655 # 1125899906842624 /\
  fmul binary64 11 (fdiv binary64 150 33) = 7036874417766401 # 140737488355328 /\
  fl64 9007199254740993 = 9007199254740992.
Proof. repeat split; vm_compute; reflexivity. Qed.

(** The rectangle of cell (10,10) for size 150 on 33 modules: in doubles
    the next column starts at 50.00000000000001, whose ceiling is 51; in
    exact arithmetic it starts at 50. *)
Example cell_width_in_doubles :
  fsub binary64 (Math_ceil (fmul binary64 (inject_Z (10 + 1)) (fdiv binary64 150 (inject_Z 33))))
                (Math_floor (fmul binary64 (inject_Z 10) (fdiv binary64 150 (inject_Z 33))))
  = 6 /\
  Qred (fsub exact (Math_ceil (fmul exact (inject_Z (10 + 1)) (fdiv exact 150 (inject_Z 33))))
                   (Math_floor (fmul exact (inject_Z 10) (fdiv exact 150 (inject_Z 33)))))
  = 5.
Proof. split; vm_compute; reflexivity. Qed.

Example clampRadius_samples :
  clampRadius 8 (-3) = 0 /\ clampRadius 8 9 = 8 / 2 /\ clampRadius 8 1 = 1.
Proof. repeat split; reflexivity. Qed.

(** ** Loops *)

Lemma in_range (n z : Z) : In z (range n) <-> (0 <= z < n)%Z.
Proof.
  unfold range. rewrite in_map_iff. split.
  - intros [k [<- Hk]]. apply in_seq in Hk. lia.
  - intros Hz. exists (Z.to_nat z). split; [lia|]. apply in_seq. lia.
Qed.

Lemma in_forEachModule {A : Type} (qrCode : QRCodeModel)
    (zones : list ICoordinates.t) (paint : Z -> Z -> list A) (a : A) :
  In a (forEachModule qrCode zones paint) <->
  exists row col,
    (0 <= row < getModuleCount qrCode)%Z /\
    (0 <= col < getModuleCount qrCode)%Z /\
    isDark qrCode row col = true /\
    isInPositioninZone row col zones = false /\
    In a (paint row col).
Proof.
  unfold forEachModule. rewrite in_flat_map. split.
  - intros [r [Hr Ha]]. apply in_flat_map in Ha. destruct Ha as [c [Hc Ha]].
    apply in_range in Hr. apply in_range in Hc.
    destruct (isDark qrCode r c) eqn:Hd; [|destruct Ha].
    destruct (isInPositioninZone r c zones) eqn:Hz; [destruct Ha|].
    exists r, c. auto.
  - intros [r [c [Hr [Hc [Hd [Hz Ha]]]]]].
    exists r. split; [now apply in_range|].
    apply in_flat_map. exists c. split; [now apply in_range|].
    now rewrite Hd, Hz.
Qed.

Lemma in_paintedCells (qrCode : QRCodeModel) (zones : list ICoordinates.t)
    (row col : Z) :
  In (row, col) (paintedCells qrCode zones) <->
  (0 <= row < getModuleCount qrCode)%Z /\
  (0 <= col < getModuleCount qrCode)%Z /\
  isDark qrCode row col = true /\
  isInPositioninZone row col zones = false.
Proof.
  unfold paintedCells. rewrite in_forEachModule. split.
  - intros [r [c [Hr [Hc [Hd [Hz [Heq|[]]]]]]]]. inversion Heq; subst. auto.
  - intros [Hr [Hc [Hd Hz]]]. exists row, col. simpl. auto 6.
Qed.

Lemma nested_loop_cells {A : Type} (cond : Z -> Z -> bool)
    (paint : Z -> Z -> list A) (rows cols : list Z) :
  flat_map (fun r => flat_map (fun c => if cond r c then paint r c else []) cols) rows =
  flat_map (fun cell => paint (fst cell) (snd cell))
    (flat_map (fun r => flat_map (fun c => if cond r c then [(r, c)] else []) cols) rows).
Proof.
  induction rows as [|r rows IH]; simpl; [reflexivity|].
  rewrite flat_map_app, <- IH. f_equal. clear IH.
  induction cols as [|c cols IHc]; simpl; [reflexivity|].
  rewrite flat_map_app, <- IHc. f_equal.
  destruct (cond r c); simpl; [now rewrite app_nil_r | reflexivity].
Qed.

(** Every style branch paints exactly the cells of [paintedCells], each with
    the branch's body. *)
Lemma forEachModule_paintedCells {A : Type} (qrCode : QRCodeModel)
    (zones : list ICoordinates.t) (paint : Z -> Z -> list A) :
  forEachModule qrCode zones paint =
  flat_map (fun cell => paint (fst cell) (snd cell)) (paintedCells qrCode zones).
Proof.
  unfold paintedCells, forEachModule.
  apply (nested_loop_cells
           (fun r c => isDark qrCode r c && negb (isInPositioninZone r c zones))).
Qed.

(** ** Finder zones *)

(** What the zone test computes on the three zones of [update], called as
    [isInPositioninZone(row, col, positioningZones)]. *)
Lemma isInPositioninZone_spec (N row col : Z) :
  isInPositioninZone row col (positioningZonesOf N) = inExclusionZone N row col.
Proof.
  unfold isInPositioninZone, positioningZonesOf, inExclusionZone, inBlock8.
  cbn [existsb ICoordinates.row ICoordinates.col].
  apply eq_true_iff_eq.
  rewrite !orb_true_iff, !andb_true_iff, !Z.leb_le. intuition lia.
Qed.

(** A cell of a 7 by 7 finder zone passes the zone test, so no style branch
    paints it. *)
Lemma finder_zone_excluded (N row col : Z) :
  inFinderZone N row col = true ->
  isInPositioninZone row col (positioningZonesOf N) = true.
Proof.
  rewrite isInPositioninZone_spec.
  unfold inFinderZone, inExclusionZone, inBlock7, inBlock8.
  rewrite !orb_true_iff, !andb_true_iff, !Z.leb_le, !Z.ltb_lt. lia.
Qed.

Lemma finder_zone_never_painted (qrCode : QRCodeModel) (row col : Z) :
  inFinderZone (getModuleCount qrCode) row col = true ->
  ~ In (row, col) (paintedCells qrCode (positioningZonesOf (getModuleCount qrCode))).
Proof.
  intros Hz Hin. apply in_paintedCells in Hin.
  apply finder_zone_excluded in Hz. destruct Hin as [_ [_ [_ Hn]]]. congruence.
Qed.

(** The cells painted by the module loops: dark, and outside the three
    blocks of rows and columns [a .. a+7]. *)
Lemma painted_iff (qrCode : QRCodeModel) (row col : Z) :
  let N := getModuleCount qrCode in
  In (row, col) (paintedCells qrCode (positioningZonesOf N)) <->
  (0 <= row < N)%Z /\ (0 <= col < N)%Z /\
  isDark qrCode row col = true /\ inExclusionZone N row col = false.
Proof.
  intros N. unfold N. rewrite in_paintedCells, isInPositioninZone_spec. reflexivity.
Qed.

(** ** The style chain *)

Lemma paintModules_cells (M : MathLib) (qrCode : QRCodeModel) (cellSize offset : Q)
    (fgColor : string) (qrStyle : option string) (zones : list ICoordinates.t) :
  paintModules M qrCode cellSize offset fgColor qrStyle zones =
  stylePrelude fgColor qrStyle ++
  flat_map (fun cell => paintCell M qrCode cellSize offset fgColor qrStyle
                                  (fst cell) (snd cell))
           (paintedCells qrCode zones).
Proof.
  rewrite <- forEachModule_paintedCells.
  unfold paintModules, paintCell, stylePrelude, shapeStyles. cbn [existsb].
  repeat match goal with
         | |- context [styleIs qrStyle ?n] => destruct (styleIs qrStyle n); cbn [orb app]
         end; reflexivity.
Qed.

Lemma issues_flat_map {A : Type} (f : A -> list CanvasOp) (l : list A) (a : A) :
  In a l -> issues (flat_map f l) (f a).
Proof.
  intros Hin. apply in_split in Hin. destruct Hin as [l1 [l2 ->]].
  rewrite flat_map_app. simpl. exists (flat_map f l1), (flat_map f l2). reflexivity.
Qed.

Lemma issues_app_l (l l' sub : list CanvasOp) : issues l sub -> issues (l ++ l') sub.
Proof.
  intros [b [a ->]]. exists b, (a ++ l'). now rewrite <- !app_assoc.
Qed.

Lemma issues_app_r (l l' sub : list CanvasOp) : issues l sub -> issues (l' ++ l) sub.
Proof.
  intros [b [a ->]]. exists (l' ++ b), a. now rewrite <- !app_assoc.
Qed.

Lemma issues_In (l sub : list CanvasOp) (op : CanvasOp) :
  issues l sub -> In op sub -> In op l.
Proof.
  intros [b [a ->]] Hin. apply in_or_app. right. apply in_or_app. now left.
Qed.

Lemma ops_andThen_done (l : list CanvasOp) (d : Draw) :
  ops (andThen (done l) d) = l ++ ops d.
Proof. reflexivity. Qed.

(** A painted cell's body appears, whole, in the synchronous paint. *)
Lemma syncPaint_issues_cell (env : Env) (p : IProps) (row col : Z) :
  let qrCode := qrGenerator env (ecLevel p) (value p) in
  let N := getModuleCount qrCode in
  In (row, col) (paintedCells qrCode (positioningZonesOf N)) ->
  issues (ops (syncPaint env p))
         (paintCell (math env) qrCode (size p / inject_Z N) (quietZone p)
                    (fgColor p) (qrStyle p) row col).
Proof.
  intros qrCode N Hin. unfold syncPaint. rewrite ops_andThen_done.
  apply issues_app_l, issues_app_r. rewrite paintModules_cells.
  apply issues_app_r.
  apply (issues_flat_map
           (fun cell => paintCell (math env) qrCode (size p / inject_Z N) (quietZone p)
                                  (fgColor p) (qrStyle p) (fst cell) (snd cell))
           _ (row, col)).
  exact Hin.
Qed.

(** ** The module renderer over a machine arithmetic *)

(** Over exact arithmetic the painters are those of [Styles]. *)
Lemma paintModulesIn_exact (M : MathLib) (qrCode : QRCodeModel) (cellSize offset : Q)
    (fgColor : string) (qrStyle : option string) (zones : list ICoordinates.t) :
  paintModulesIn exact M qrCode cellSize offset fgColor qrStyle zones =
  paintModules M qrCode cellSize offset fgColor qrStyle zones.
Proof. reflexivity. Qed.

Lemma paintCellIn_exact (M : MathLib) (qrCode : QRCodeModel) (cellSize offset : Q)
    (fgColor : string) (qrStyle : option string) :
  paintCellIn exact M qrCode cellSize offset fgColor qrStyle =
  paintCell M qrCode cellSize offset fgColor qrStyle.
Proof. reflexivity. Qed.

(** The synchronous paint is the canvas set-up, the module renderer and the
    eye loop, in this order. *)
Lemma syncPaint_moduleRenderer (env : Env) (p : IProps) :
  let length := getModuleCount (qrGenerator env (ecLevel p) (value p)) in
  let canvasSize := size p + 2 * quietZone p in
  let scale := orElse (devicePixelRatio env) 1 in
  ops (syncPaint env p) =
  [ResizeCanvas (canvasSize * scale) (canvasSize * scale);
   Scale scale scale;
   SetFillStyle (bgColor p);
   FillRect 0 0 canvasSize canvasSize;
   SetStrokeStyle (fgColor p)]
  ++ moduleRenderer exact env p
  ++ ops (drawEyes (size p / inject_Z length) (quietZone p) (positioningZonesOf length)
            (eyeRadius p) (eyeColor p) (fgColor p)).
Proof.
  cbv zeta. unfold syncPaint. rewrite ops_andThen_done.
  unfold moduleRenderer. reflexivity.
Qed.

Lemma paintModulesIn_cells (A : Arith) (M : MathLib) (qrCode : QRCodeModel)
    (cellSize offset : Q) (fgColor : string) (qrStyle : option string)
    (zones : list ICoordinates.t) :
  paintModulesIn A M qrCode cellSize offset fgColor qrStyle zones =
  stylePrelude fgColor qrStyle ++
  flat_map (fun cell => paintCellIn A M qrCode cellSize offset fgColor qrStyle
                                    (fst cell) (snd cell))
           (paintedCells qrCode zones).
Proof.
  rewrite <- forEachModule_paintedCells.
  unfold paintModulesIn, paintCellIn, stylePrelude, shapeStyles. cbn [existsb].
  repeat match goal with
         | |- context [styleIs qrStyle ?n] => destruct (styleIs qrStyle n); cbn [orb app]
         end; reflexivity.
Qed.

(** A painted cell's body appears, whole, in the module renderer's paint. *)
Lemma moduleRenderer_issues_cell (A : Arith) (env : Env) (p : IProps) (row col : Z) :
  let qrCode := qrGenerator env (ecLevel p) (value p) in
  let N := getModuleCount qrCode in
  In (row, col) (paintedCells qrCode (positioningZonesOf N)) ->
  issues (moduleRenderer A env p)
         (paintCellIn A (math env) qrCode (fdiv A (size p) (inject_Z N)) (quietZone p)
                      (fgColor p) (qrStyle p) row col).
Proof.
  intros qrCode N Hin. unfold moduleRenderer. cbv zeta.
  rewrite paintModulesIn_cells. apply issues_app_r.
  apply (issues_flat_map
           (fun cell => paintCellIn A (math env) qrCode (fdiv A (size p) (inject_Z N))
                                    (quietZone p) (fgColor p) (qrStyle p)
                                    (fst cell) (snd cell))
           _ (row, col)).
  exact Hin.
Qed.

(** Every cell body fills: a path, or a rectangle. *)
Lemma paintCellIn_fills (A : Arith) (M : MathLib) (qrCode : QRCodeModel)
    (cellSize offset : Q) (fgColor : string) (qrStyle : option string) (row col : Z) :
  In Fill (paintCellIn A M qrCode cellSize offset fgColor qrStyle row col) \/
  exists x y w h,
    In (FillRect x y w h) (paintCellIn A M qrCode cellSize offset fgColor qrStyle row col).
Proof.
  unfold paintCellIn.
  repeat match goal with
         | |- context [styleIs qrStyle ?n] => destruct (styleIs qrStyle n)
         end;
    try (right; do 4 eexists; right; left; reflexivity);
    left;
    unfold paintHeartIn, heartShapeIn, paintStarIn, starShapeIn, paintDiamondIn,
      diamondShapeIn, paintPolygonIn, polygonShapeIn, paintDotIn, dotShapeIn,
      paintFluidIn, fluidPathIn;
    cbv zeta; rewrite ?in_app_iff; cbn [In]; tauto.
Qed.

(** ** C1: which cells the module loops paint *)

(** A cell of the grid that passes the zone test without lying in a 7 by 7
    finder zone is a separator module. *)
Lemma beside_finder_zone_is_separator (N row col : Z) :
  (0 <= row < N)%Z -> (0 <= col < N)%Z ->
  inExclusionZone N row col = true -> inFinderZone N row col = false ->
  isSeparator N row col = true.
Proof.
  intros Hr Hc Hex Hfz. apply not_true_iff_false in Hfz.
  unfold inExclusionZone, inBlock8 in Hex. unfold inFinderZone, inBlock7 in Hfz.
  unfold isSeparator.
  rewrite !orb_true_iff, !andb_true_iff, !Z.leb_le in Hex.
  rewrite !orb_true_iff, !andb_true_iff, !Z.leb_le, !Z.ltb_lt in Hfz.
  rewrite !orb_true_iff, !andb_true_iff, !Z.leb_le, !Z.ltb_lt, !Z.eqb_eq. lia.
Qed.

(** On a grid whose separators are light, the zone test and membership in
    the 7 by 7 finder zones agree on every dark module. *)
Lemma zone_test_on_dark_modules (qrCode : QRCodeModel) (row col : Z) :
  let N := getModuleCount qrCode in
  separatorsLight qrCode ->
  (0 <= row < N)%Z -> (0 <= col < N)%Z ->
  isDark qrCode row col = true ->
  isInPositioninZone row col (positioningZonesOf N) = inFinderZone N row col.
Proof.
  intros N Hsep Hr Hc Hdark.
  destruct (inFinderZone N row col) eqn:Hfz; [now apply finder_zone_excluded|].
  destruct (isInPositioninZone row col (positioningZonesOf N)) eqn:Hz; [|reflexivity].
  rewrite isInPositioninZone_spec in Hz.
  pose proof (beside_finder_zone_is_separator N row col Hr Hc Hz Hfz) as Hs.
  apply Hsep in Hs. congruence.
Qed.

(** Without the invariant the zone test is wider than the finder zones: on
    a grid of 21 modules that are all dark, the module at row 7, column 7
    is outside the three 7 by 7 zones and passes the zone test. *)
Example zone_test_covers_the_separators :
  isDark (allDark 21) 7 7 = true /\
  inFinderZone 21 7 7 = false /\
  isSeparator 21 7 7 = true /\
  isInPositioninZone 7 7 (positioningZonesOf 21) = true.
Proof. repeat split. Qed.

(** C1.  On a module grid as the encoder produces it (the separator
    modules around the finder patterns are light), for every style and in
    every arithmetic: the module renderer's paint is the style's prelude
    followed by one shape for each cell of [paintedCells], in loop order;
    a cell is among them if and only if it is a cell of the grid, its
    module is dark and it lies outside the three 7 by 7 finder zones
    anchored at (0,0), (0,N-7) and (N-7,0); and the body run for a cell
    fills a path or a rectangle.  So no cell inside a finder zone is
    painted and every dark cell outside the three zones is. *)
Theorem C1_painted_iff_dark_and_outside_finder_zones
    (A : Arith) (env : Env) (p : IProps) :
  let qrCode := qrGenerator env (ecLevel p) (value p) in
  let N := getModuleCount qrCode in
  let cells := paintedCells qrCode (positioningZonesOf N) in
  let body := paintCellIn A (math env) qrCode (fdiv A (size p) (inject_Z N))
                          (quietZone p) (fgColor p) (qrStyle p) in
  separatorsLight qrCode ->
  moduleRenderer A env p
  = stylePrelude (fgColor p) (qrStyle p)
    ++ flat_map (fun cell => body (fst cell) (snd cell)) cells /\
  (forall row col,
      In (row, col) cells <->
      (0 <= row < N)%Z /\ (0 <= col < N)%Z /\
      isDark qrCode row col = true /\ inFinderZone N row col = false) /\
  (forall row col,
      In Fill (body row col) \/ exists x y w h, In (FillRect x y w h) (body row col)).
Proof.
  intros qrCode N cells body Hsep. split; [|split].
  - unfold moduleRenderer. cbv zeta. apply paintModulesIn_cells.
  - intros row col. unfold cells. rewrite in_paintedCells.
    split; intros [Hr [Hc [Hd Hz]]];
      pose proof (zone_test_on_dark_modules qrCode row col Hsep Hr Hc Hd) as Hzt;
      cbv zeta in Hzt; unfold N in *; repeat split; try lia; congruence.
  - intros row col. apply paintCellIn_fills.
Qed.

Lemma C1_painted_iff_dark_and_outside_finder_zones_witness :
  In (8, 8)%Z (paintedCells (darkButSeparators 21) (positioningZonesOf 21)) /\
  ~ In (3, 17)%Z (paintedCells (darkButSeparators 21) (positioningZonesOf 21)) /\
  ~ In (7, 7)%Z (paintedCells (darkButSeparators 21) (positioningZonesOf 21)).
Proof.
  assert (Hsep : separatorsLight (darkButSeparators 21)).
  { intros row col Hs. simpl in *. now rewrite Hs. }
  destruct (C1_painted_iff_dark_and_outside_finder_zones
              binary64 (sampleEnv (darkButSeparators 21)) defaultProps Hsep)
    as [_ [Hcells _]].
  split; [|split].
  - apply Hcells. simpl. repeat split; try lia; reflexivity.
  - intros Hin. apply Hcells in Hin. destruct Hin as [_ [_ [_ Hz]]]. discriminate Hz.
  - intros Hin. apply Hcells in Hin. destruct Hin as [_ [_ [Hd _]]]. discriminate Hd.
Defined.

(** ** C8: the default style *)

Lemma styleIs_other (qrStyle : option string) (names : list string) :
  (forall s, qrStyle = Some s -> ~ In s names) ->
  forall name, In name names -> styleIs qrStyle name = false.
Proof.
  intros Hother name Hin. destruct qrStyle as [s|]; [|reflexivity].
  simpl. apply String.eqb_neq. intros ->. exact (Hother name eq_refl Hin).
Qed.

Lemma paintCellIn_default (A : Arith) (M : MathLib) (qrCode : QRCodeModel)
    (cellSize offset : Q) (fgColor : string) (qrStyle : option string) :
  (forall s, qrStyle = Some s -> ~ In s (shapeStyles ++ ["fluid"%string])) ->
  paintCellIn A M qrCode cellSize offset fgColor qrStyle
  = paintSquareIn A cellSize offset fgColor.
Proof.
  intros Hother. unfold paintCellIn.
  rewrite !(styleIs_other qrStyle _ Hother); [reflexivity| | | | | | | |];
    simpl; tauto.
Qed.

(** C8.  When [qrStyle] is unset or is none of hearts, stars, diamonds,
    octagons, pentagons, triangles, dots, fluid, every dark cell of the grid
    that the zone test lets through is painted as a filled rectangle: the
    fill style is set to [fgColor] and [fillRect] is called with top-left
    corner (round(col * cellSize) + offset, round(row * cellSize) + offset),
    width ceil((col+1) * cellSize) - floor(col * cellSize) and height
    ceil((row+1) * cellSize) - floor(row * cellSize), where
    cellSize = size / N and each product, quotient, sum and difference is
    the machine's: the statement holds in every arithmetic [A], so for the
    doubles of the implementation as for exact numbers. *)
Theorem C8_default_style_fills_rectangles
    (A : Arith) (env : Env) (p : IProps) (row col : Z) :
  let qrCode := qrGenerator env (ecLevel p) (value p) in
  let N := getModuleCount qrCode in
  let cellSize := fdiv A (size p) (inject_Z N) in
  let offset := quietZone p in
  (forall s, qrStyle p = Some s -> ~ In s (shapeStyles ++ ["fluid"%string])) ->
  (0 <= row < N)%Z -> (0 <= col < N)%Z ->
  isDark qrCode row col = true ->
  isInPositioninZone row col (positioningZonesOf N) = false ->
  issues (moduleRenderer A env p)
    [SetFillStyle (fgColor p);
     FillRect (fadd A (Math_round (fmul A (inject_Z col) cellSize)) offset)
              (fadd A (Math_round (fmul A (inject_Z row) cellSize)) offset)
              (fsub A (Math_ceil (fmul A (inject_Z (col + 1)) cellSize))
                      (Math_floor (fmul A (inject_Z col) cellSize)))
              (fsub A (Math_ceil (fmul A (inject_Z (row + 1)) cellSize))
                      (Math_floor (fmul A (inject_Z row) cellSize)))].
Proof.
  intros qrCode N cellSize offset Hother Hrow Hcol Hdark Hzone.
  assert (Hin : In (row, col) (paintedCells qrCode (positioningZonesOf N)))
    by (apply in_paintedCells; auto).
  pose proof (moduleRenderer_issues_cell A env p row col Hin) as Hiss.
  rewrite (paintCellIn_default _ _ _ _ _ _ _ Hother) in Hiss. exact Hiss.
Qed.

(** In doubles, with the default size 150 on a grid of 33 modules:
    150 / 33 is 4.545454545454546 and its product by 11 is
    50.00000000000001, whose ceiling is 51; the rectangle of cell (10,10)
    is 6 wide and 6 high, at (55, 55). *)
Lemma C8_default_style_fills_rectangles_witness :
  issues (moduleRenderer binary64 (sampleEnv (allDark 33)) defaultProps)
    [SetFillStyle "#000000"; FillRect 55 55 6 6].
Proof.
  apply (C8_default_style_fills_rectangles binary64 (sampleEnv (allDark 33))
           defaultProps 10 10).
  - intros s Hs. injection Hs as <-. simpl. intuition discriminate.
  - simpl. lia.
  - simpl. lia.
  - reflexivity.
  - reflexivity.
Defined.

(** ** C3: where the shape styles centre their shapes *)

Lemma paintCellIn_shape (A : Arith) (M : MathLib) (qrCode : QRCodeModel)
    (cellSize offset : Q) (fgColor : string) (name : string) (row col : Z) :
  In name shapeStyles ->
  paintCellIn A M qrCode cellSize offset fgColor (Some name) row col =
  shapeAroundIn A M cellSize (Some name)
    (fadd A (fadd A (Math_round (fmul A (inject_Z col) cellSize)) (fdiv A cellSize 2)) offset)
    (fadd A (fadd A (Math_round (fmul A (inject_Z row) cellSize)) (fdiv A cellSize 2)) offset).
Proof.
  intros Hin. unfold shapeStyles in Hin. simpl in Hin.
  repeat (destruct Hin as [<- | Hin]; [reflexivity|]). destruct Hin.
Qed.

Lemma rounded_sum_eq (A : Arith) (x h offset : Q) :
  addsExactly A (Math_round x) h offset ->
  addsExactly A x h offset ->
  (fadd A (fadd A (Math_round x) h) offset == fadd A (fadd A x h) offset
   <-> Math_round x == x).
Proof.
  unfold addsExactly. intros H1 H2. rewrite H1, H2. split; intros H; lra.
Qed.

(** C3, as amended.  For every shape style (hearts, stars, diamonds,
    octagons, pentagons, triangles, dots) and every painted cell, the paint
    contains that style's shape drawn around the centre
    (round(col * cellSize) + cellSize/2 + offset,
     round(row * cellSize) + cellSize/2 + offset),
    with cellSize = size / N and offset = quietZone: the cell origin is
    rounded to an integer before the half cell and the offset are added.
    Each operation is the machine's: this holds in every arithmetic [A].
    Where the two additions are exact, this centre is
    (col * cellSize + cellSize/2 + offset, row * cellSize + cellSize/2 +
    offset) if and only if col * cellSize, respectively row * cellSize,
    is an integer. *)
Theorem C3_shape_center_is_rounded_origin_plus_half_cell
    (A : Arith) (env : Env) (p : IProps) (name : string) (row col : Z) :
  let qrCode := qrGenerator env (ecLevel p) (value p) in
  let N := getModuleCount qrCode in
  let cellSize := fdiv A (size p) (inject_Z N) in
  let offset := quietZone p in
  let half := fdiv A cellSize 2 in
  let originX := fmul A (inject_Z col) cellSize in
  let originY := fmul A (inject_Z row) cellSize in
  let centerX := fadd A (fadd A (Math_round originX) half) offset in
  let centerY := fadd A (fadd A (Math_round originY) half) offset in
  In name shapeStyles ->
  qrStyle p = Some name ->
  In (row, col) (paintedCells qrCode (positioningZonesOf N)) ->
  issues (moduleRenderer A env p)
    (shapeAroundIn A (math env) cellSize (Some name) centerX centerY) /\
  (addsExactly A (Math_round originX) half offset ->
   addsExactly A originX half offset ->
   (centerX == fadd A (fadd A originX half) offset <-> Math_round originX == originX)) /\
  (addsExactly A (Math_round originY) half offset ->
   addsExactly A originY half offset ->
   (centerY == fadd A (fadd A originY half) offset <-> Math_round originY == originY)).
Proof.
  intros qrCode N cellSize offset half originX originY centerX centerY
         Hname Hstyle Hin.
  split; [|split].
  - pose proof (moduleRenderer_issues_cell A env p row col Hin) as Hiss.
    rewrite Hstyle in Hiss.
    rewrite (paintCellIn_shape _ _ _ _ _ _ name row col Hname) in Hiss. exact Hiss.
  - apply rounded_sum_eq.
  - apply rounded_sum_eq.
Qed.

(** In doubles, with size 52.5 on a grid of 21 modules (cellSize 2.5): the
    dot of cell (9,9) has its centre at 23 + 1.25 + 10 = 34.25, where
    9 * 2.5 + 1.25 + 10 = 33.75. *)
Lemma C3_shape_center_is_rounded_origin_plus_half_cell_witness :
  issues (moduleRenderer binary64 (sampleEnv (singleDark 21 9 9))
            (withSize (withStyle defaultProps (Some "dots"%string)) (105 # 2)))
    (shapeAroundIn binary64 sampleMath (5 # 2) (Some "dots"%string)
                   (137 # 4) (137 # 4)) /\
  ((137 # 4) == (135 # 4) <-> 23 == (45 # 2)).
Proof.
  destruct (C3_shape_center_is_rounded_origin_plus_half_cell binary64
              (sampleEnv (singleDark 21 9 9))
              (withSize (withStyle defaultProps (Some "dots"%string)) (105 # 2))
              "dots" 9 9) as [Hissues [HcenterX _]].
  - simpl. tauto.
  - reflexivity.
  - apply in_paintedCells. simpl. repeat split; try lia; reflexivity.
  - split; [exact Hissues|].
    apply HcenterX; vm_compute; reflexivity.
Defined.

(** In doubles, with size 157.5 on a grid of 65 modules, the origin of
    column 13 is 31.499999999999996, which rounds to 31; the exact product
    is 31.5, which rounds to 32. *)
Example rounded_origin_in_doubles :
  Math_round (fmul binary64 (inject_Z 13) (fdiv binary64 (315 # 2) (inject_Z 65))) = 31 /\
  Math_round (fmul exact (inject_Z 13) (fdiv exact (315 # 2) (inject_Z 65))) = 32.
Proof. split; vm_compute; reflexivity. Qed.

(** C3, the claim as stated: centre (col * cellSize + cellSize/2 + offset,
    row * cellSize + cellSize/2 + offset).  With the default size 150 and
    quiet zone 10 on a grid of 21 modules, the one dark module at row 8,
    column 8 is painted in the dots style, and no circle of the paint has
    its centre at abscissa 8 * cellSize + cellSize/2 + offset; neither in
    exact arithmetic (the circle is at 57 + 25/7 + 10) nor in doubles (the
    circle is at 70.57142857142857, the claim's abscissa is
    70.71428571428572). *)
Lemma C3_center_not_at_unrounded_origin :
  let qrCode := singleDark 21 8 8 in
  let p := withStyle defaultProps (Some "dots"%string) in
  let cellSize := size p / inject_Z (getModuleCount qrCode) in
  let cellSize64 := fdiv binary64 (size p) (inject_Z (getModuleCount qrCode)) in
  let offset := quietZone p in
  In (8, 8)%Z (paintedCells qrCode (positioningZonesOf (getModuleCount qrCode))) /\
  (exists x y r a b ccw, In (Arc x y r a b ccw) (ops (syncPaint (sampleEnv qrCode) p))) /\
  (forall x y r a b ccw,
      In (Arc x y r a b ccw) (ops (syncPaint (sampleEnv qrCode) p)) ->
      ~ x == inject_Z 8 * cellSize + cellSize / 2 + offset) /\
  (exists x y r a b ccw,
      In (Arc x y r a b ccw) (moduleRenderer binary64 (sampleEnv qrCode) p)) /\
  (forall x y r a b ccw,
      In (Arc x y r a b ccw) (moduleRenderer binary64 (sampleEnv qrCode) p) ->
      ~ x == fadd binary64
               (fadd binary64 (fmul binary64 (inject_Z 8) cellSize64)
                              (fdiv binary64 cellSize64 2))
               offset).
Proof.
  cbv zeta. split; [|split; [|split; [|split]]].
  - apply in_paintedCells. simpl. repeat split; try lia; reflexivity.
  - vm_compute. do 6 eexists. do 7 right. left. reflexivity.
  - intros x y r a b ccw Hin. vm_compute in Hin.
    repeat (destruct Hin as [Hin | Hin]; [try discriminate Hin|]); [|destruct Hin].
    injection Hin as <- <- <- <- <- <-. vm_compute. discriminate.
  - vm_compute. do 6 eexists. do 2 right. left. reflexivity.
  - intros x y r a b ccw Hin. vm_compute in Hin.
    repeat (destruct Hin as [Hin | Hin]; [try discriminate Hin|]); [|destruct Hin].
    injection Hin as <- <- <- <- <- <-. vm_compute. discriminate.
Qed.

(** ** C2: the fluid style *)

Ltac zbool :=
  repeat match goal with
         | |- context [(?a <=? ?b)%Z] => destruct (Z.leb_spec a b)
         | |- context [(?a <? ?b)%Z] => destruct (Z.ltb_spec a b)
         end;
  simpl; try reflexivity; try lia.

(** For a cell of the grid, the four neighbour tests of the source are the
    neighbour's darkness, cells outside the grid counting as light. *)
Lemma neighbor_tests (qrCode : QRCodeModel) (row col : Z) :
  (0 <= row < getModuleCount qrCode)%Z ->
  (0 <= col < getModuleCount qrCode)%Z ->
  isDarkUp qrCode row col = darkNeighbor qrCode (row - 1) col /\
  isDarkDown qrCode row col = darkNeighbor qrCode (row + 1) col /\
  isDarkLeft qrCode row col = darkNeighbor qrCode row (col - 1) /\
  isDarkRight qrCode row col = darkNeighbor qrCode row (col + 1).
Proof.
  intros Hr Hc. unfold isDarkUp, isDarkDown, isDarkLeft, isDarkRight, darkNeighbor.
  repeat split; zbool.
Qed.

(** A cell is at least [cellSize] wide and high. *)
Lemma cell_extent (cellSize : Q) (i : Z) :
  cellSize <= Math_ceil (inject_Z (i + 1) * cellSize) - Math_floor (inject_Z i * cellSize).
Proof.
  unfold Math_ceil, Math_floor.
  pose proof (Qle_ceiling (inject_Z (i + 1) * cellSize)) as Hc.
  pose proof (Qfloor_le (inject_Z i * cellSize)) as Hf.
  rewrite inject_Z_plus in Hc at 1.
  assert (He : (inject_Z i + inject_Z 1) * cellSize == inject_Z i * cellSize + cellSize)
    by ring.
  rewrite He in Hc. clear He.
  generalize dependent (inject_Z (Qceiling (inject_Z (i + 1) * cellSize))).
  generalize dependent (inject_Z (Qfloor (inject_Z i * cellSize))).
  generalize (inject_Z i * cellSize). intros a f Hf c Hc. lra.
Qed.

Ltac pick_in :=
  simpl;
  first [ left; reflexivity ] +
  (right; first [ left; reflexivity ]) +
  (right; right; first [ left; reflexivity ]) +
  (right; right; right; first [ left; reflexivity ]) +
  (do 4 right; first [ left; reflexivity ]) +
  (do 5 right; first [ left; reflexivity ]) +
  (do 6 right; first [ left; reflexivity ]) +
  (do 7 right; first [ left; reflexivity ]) +
  (do 8 right; first [ left; reflexivity ]) +
  (do 9 right; first [ left; reflexivity ]) +
  (do 10 right; first [ left; reflexivity ]) +
  (do 11 right; first [ left; reflexivity ]).

Ltac geo :=
  simpl;
  match goal with
  | |- _ /\ _ => split; geo
  | |- _ \/ _ => (left; geo) + (right; geo)
  | |- _ => lra
  end.

(** No curve of the listed ones has its control point at the corner. *)
Ltac no_curve H :=
  let c := fresh "c" in
  let Hin := fresh "Hin" in
  let Hx := fresh "Hx" in
  let Hy := fresh "Hy" in
  destruct H as [c [Hin [Hx Hy]]]; simpl in Hin;
  repeat (destruct Hin as [Hin | Hin]; [subst c; simpl in Hx, Hy; lra|]);
  destruct Hin.

Section FluidGeometry.

Variables x y w h r : Q.
Hypothesis r_pos : 0 < r.
Hypothesis r_lt_w : r < w.
Hypothesis r_lt_h : r < h.

Variable free : Corner -> bool.

Lemma fluidOutline_free_rounded (c : Corner) :
  free c = true ->
  roundedAt (fluidOutline free x y w h r) (cornerPoint x y w h c) r.
Proof.
  intros Hc. unfold roundedAt, fluidOutline, curves, cornerSegment.
  destruct c; cbn [flat_map app];
    destruct (free TopLeft) eqn:Htl, (free TopRight) eqn:Htr,
             (free BottomRight) eqn:Hbr, (free BottomLeft) eqn:Hbl;
    try discriminate Hc; cbn [curvesFrom app fst snd cornerPoint approachPoint leavePoint];
    eexists; (split; [pick_in | unfold samePoint, axisDistance; solve [geo]]).
Qed.

Lemma fluidOutline_blocked_sharp (c : Corner) :
  free c = false ->
  sharpAt (fluidOutline free x y w h r) (cornerPoint x y w h c).
Proof.
  intros Hc. unfold sharpAt, fluidOutline, curves, cornerSegment.
  destruct c; cbn [flat_map app];
    destruct (free TopLeft) eqn:Htl, (free TopRight) eqn:Htr,
             (free BottomRight) eqn:Hbr, (free BottomLeft) eqn:Hbl;
    try discriminate Hc; cbn [curvesFrom app fst snd cornerPoint approachPoint leavePoint];
    (split;
     [ do 2 eexists; (split; [pick_in | unfold samePoint; solve [geo]])
     | let H := fresh "H" in intros H; unfold samePoint in H; no_curve H ]).
Qed.

Lemma fluidOutline_rounded_iff (c : Corner) :
  roundedAt (fluidOutline free x y w h r) (cornerPoint x y w h c) r <-> free c = true.
Proof.
  split; [|apply fluidOutline_free_rounded].
  intros [cv [Hin [Hctl _]]]. destruct (free c) eqn:Hc; [reflexivity|].
  destruct (fluidOutline_blocked_sharp c Hc) as [_ Hno].
  exfalso. apply Hno. exists cv. auto.
Qed.

Lemma fluidOutline_sharp_iff (c : Corner) :
  sharpAt (fluidOutline free x y w h r) (cornerPoint x y w h c) <-> free c = false.
Proof.
  split; [|apply fluidOutline_blocked_sharp].
  intros [_ Hno]. destruct (free c) eqn:Hc; [|reflexivity].
  destruct (fluidOutline_free_rounded c Hc) as [cv [Hin [Hctl _]]].
  exfalso. apply Hno. exists cv. auto.
Qed.

End FluidGeometry.

(** The path of the source is the outline of the specification, with the
    corners that have both adjacent neighbours light as the free ones. *)
Lemma paintFluid_outline (qrCode : QRCodeModel) (cellSize offset : Q)
    (fgColor : string) (row col : Z) :
  (0 <= row < getModuleCount qrCode)%Z ->
  (0 <= col < getModuleCount qrCode)%Z ->
  paintFluid qrCode cellSize offset fgColor row col =
  SetFillStyle fgColor ::
  fluidOutline (cornerFree qrCode row col)
    (Math_round (inject_Z col * cellSize) + offset)
    (Math_round (inject_Z row * cellSize) + offset)
    (Math_ceil (inject_Z (col + 1) * cellSize) - Math_floor (inject_Z col * cellSize))
    (Math_ceil (inject_Z (row + 1) * cellSize) - Math_floor (inject_Z row * cellSize))
    (cellSize / (3 # 2)).
Proof.
  intros Hr Hc. destruct (neighbor_tests qrCode row col Hr Hc) as [Hu [Hd [Hl Hri]]].
  unfold paintFluid, fluidOutline, cornerFree, cornerSegment. cbv zeta.
  rewrite Hu, Hd, Hl, Hri.
  destruct (darkNeighbor qrCode (row - 1) col), (darkNeighbor qrCode (row + 1) col),
    (darkNeighbor qrCode row (col - 1)), (darkNeighbor qrCode row (col + 1));
    reflexivity.
Qed.

Lemma curves_cons_style (c : string) (path : list CanvasOp) :
  curves (SetFillStyle c :: path) = curves path.
Proof. reflexivity. Qed.

(** C2.  In the fluid style, for every dark cell of the grid that the zone
    test lets through, the paint contains the cell's path, and that path is
    the outline in which a corner of the cell's rectangle is a quadratic
    curve of radius cellSize/1.5 exactly when both edge neighbours adjacent
    to the corner are not dark (cells outside the grid counting as light),
    and a sharp vertex otherwise.  When the cell has a positive size, the
    curves and vertices can be read off the path by their position: the
    path is rounded at a corner if and only if both neighbours are light,
    and sharp there if and only if one of them is dark.  A dark cell whose
    four neighbours are light has its four corners rounded. *)
Theorem C2_fluid_corner_rounded_iff_both_neighbors_light
    (env : Env) (p : IProps) (row col : Z) :
  let qrCode := qrGenerator env (ecLevel p) (value p) in
  let N := getModuleCount qrCode in
  let cellSize := size p / inject_Z N in
  let offset := quietZone p in
  let radius := cellSize / (3 # 2) in
  let x := Math_round (inject_Z col * cellSize) + offset in
  let y := Math_round (inject_Z row * cellSize) + offset in
  let w := Math_ceil (inject_Z (col + 1) * cellSize) - Math_floor (inject_Z col * cellSize) in
  let h := Math_ceil (inject_Z (row + 1) * cellSize) - Math_floor (inject_Z row * cellSize) in
  let path := paintFluid qrCode cellSize offset (fgColor p) row col in
  qrStyle p = Some "fluid"%string ->
  (0 <= row < N)%Z -> (0 <= col < N)%Z ->
  isDark qrCode row col = true ->
  isInPositioninZone row col (positioningZonesOf N) = false ->
  issues (ops (syncPaint env p)) path /\
  path = SetFillStyle (fgColor p) :: fluidOutline (cornerFree qrCode row col) x y w h radius /\
  (0 < cellSize ->
   (forall c : Corner,
      (roundedAt path (cornerPoint x y w h c) radius <-> cornerFree qrCode row col c = true) /\
      (sharpAt path (cornerPoint x y w h c) <-> cornerFree qrCode row col c = false)) /\
   (darkNeighbor qrCode (row - 1) col = false ->
    darkNeighbor qrCode (row + 1) col = false ->
    darkNeighbor qrCode row (col - 1) = false ->
    darkNeighbor qrCode row (col + 1) = false ->
    forall c : Corner, roundedAt path (cornerPoint x y w h c) radius)).
Proof.
  intros qrCode N cellSize offset radius x y w h path Hstyle Hrow Hcol Hdark Hzone.
  assert (Hin : In (row, col) (paintedCells qrCode (positioningZonesOf N)))
    by (apply in_paintedCells; auto).
  pose proof (syncPaint_issues_cell env p row col Hin) as Hiss.
  rewrite Hstyle in Hiss. change (issues (ops (syncPaint env p)) path) in Hiss.
  pose proof (paintFluid_outline qrCode cellSize offset (fgColor p) row col Hrow Hcol)
    as Hpath.
  change (path = SetFillStyle (fgColor p)
                 :: fluidOutline (cornerFree qrCode row col) x y w h radius) in Hpath.
  split; [exact Hiss|]. split; [exact Hpath|].
  intros Hpos.
  assert (Hr : 0 < radius).
  { unfold radius. apply Qlt_shift_div_l; lra. }
  assert (Hlt : radius < cellSize).
  { unfold radius. apply Qlt_shift_div_r; lra. }
  assert (Hw : radius < w).
  { pose proof (cell_extent cellSize col). fold w in H. lra. }
  assert (Hh : radius < h).
  { pose proof (cell_extent cellSize row). fold h in H. lra. }
  assert (Hiff : forall c : Corner,
      (roundedAt path (cornerPoint x y w h c) radius <-> cornerFree qrCode row col c = true) /\
      (sharpAt path (cornerPoint x y w h c) <-> cornerFree qrCode row col c = false)).
  { intros c. rewrite Hpath. split.
    - unfold roundedAt. rewrite curves_cons_style.
      apply (fluidOutline_rounded_iff x y w h radius Hr Hw Hh).
    - pose proof (fluidOutline_sharp_iff x y w h radius Hr Hw Hh
                    (cornerFree qrCode row col) c) as Hs.
      rewrite <- Hs. unfold sharpAt. rewrite curves_cons_style.
      split; intros [[px [py [Hp Hsame]]] Hno]; (split; [|exact Hno]);
        exists px, py; (split; [|exact Hsame]).
      + destruct Hp as [Hp | Hp]; [discriminate Hp | exact Hp].
      + right. exact Hp. }
  split; [exact Hiff|].
  intros Hu Hd Hl Hri c. apply Hiff.
  unfold cornerFree. rewrite Hu, Hd, Hl, Hri. destruct c; reflexivity.
Qed.

Lemma C2_fluid_corner_rounded_iff_both_neighbors_light_witness :
  let qrCode := singleDark 21 8 8 in
  let cellSize := 150 / inject_Z 21 in
  let x := Math_round (inject_Z 8 * cellSize) + 10 in
  let w := Math_ceil (inject_Z (8 + 1) * cellSize) - Math_floor (inject_Z 8 * cellSize) in
  let path := paintFluid qrCode cellSize 10 "#000000" 8 8 in
  roundedAt path (cornerPoint x x w w TopLeft) (cellSize / (3 # 2)) /\
  roundedAt path (cornerPoint x x w w TopRight) (cellSize / (3 # 2)) /\
  roundedAt path (cornerPoint x x w w BottomRight) (cellSize / (3 # 2)) /\
  roundedAt path (cornerPoint x x w w BottomLeft) (cellSize / (3 # 2)).
Proof.
  cbv zeta.
  destruct (C2_fluid_corner_rounded_iff_both_neighbors_light
              (sampleEnv (singleDark 21 8 8))
              (withStyle defaultProps (Some "fluid"%string)) 8 8)
    as [_ [_ Hgeo]].
  - reflexivity.
  - simpl. lia.
  - simpl. lia.
  - reflexivity.
  - reflexivity.
  - destruct Hgeo as [_ Hall].
    + reflexivity.
    + repeat split; apply Hall; reflexivity.
Defined.

(** ** C4: the corner radii of drawRoundedSquare *)

Lemma Qltb_true (a b : Q) : Qltb a b = true <-> a < b.
Proof.
  unfold Qltb. rewrite negb_true_iff. split.
  - intros H. apply Qnot_le_lt. intros Hle. apply Qle_bool_iff in Hle. congruence.
  - intros H. destruct (Qle_bool b a) eqn:E; [|reflexivity].
    apply Qle_bool_iff in E. lra.
Qed.

Lemma Qltb_false (a b : Q) : Qltb a b = false <-> b <= a.
Proof.
  unfold Qltb. rewrite negb_false_iff. apply Qle_bool_iff.
Qed.

Lemma orElse_zero (r : Q) : orElse r 0 == r.
Proof.
  unfold orElse, truthy. destruct (Qeq_bool r 0) eqn:E; simpl; [|reflexivity].
  apply Qeq_bool_iff in E. now rewrite E.
Qed.

Lemma clampRadius_nonneg (size r : Q) : 0 <= clampRadius size r.
Proof.
  unfold clampRadius. cbv zeta.
  destruct (Qltb (Math_min r (size / 2)) 0) eqn:E; [lra|].
  now apply Qltb_false in E.
Qed.

Lemma clampRadius_le_half (size r : Q) : 0 <= size -> clampRadius size r <= size / 2.
Proof.
  intros Hs. unfold clampRadius. cbv zeta.
  destruct (Qltb (Math_min r (size / 2)) 0) eqn:E.
  - apply Qle_shift_div_l; lra.
  - apply Q.le_min_r.
Qed.

Lemma clampRadius_negative (size r : Q) : r < 0 -> clampRadius size r == 0.
Proof.
  intros Hr. unfold clampRadius. cbv zeta.
  destruct (Qltb (Math_min r (size / 2)) 0) eqn:E; [reflexivity|].
  apply Qltb_false in E. pose proof (Q.le_min_l r (size / 2)). unfold Math_min in E. lra.
Qed.

Lemma clampRadius_degenerate (size r : Q) : size < 0 -> clampRadius size r == 0.
Proof.
  intros Hs. unfold clampRadius. cbv zeta.
  destruct (Qltb (Math_min r (size / 2)) 0) eqn:E; [reflexivity|].
  apply Qltb_false in E. pose proof (Q.le_min_r r (size / 2)). unfold Math_min in E.
  assert (size / 2 < 0) by (apply Qlt_shift_div_r; lra). lra.
Qed.

(** The radius used for corner [i] is [0] when the array has no entry [i],
    and the clamped entry otherwise. *)
Lemma radiusAt_clamped (size : Q) (l : list Q) (i : nat) :
  match nth_error l i with
  | Some r => radiusAt (map (clampRadius size) l) i == clampRadius size r
  | None => radiusAt (map (clampRadius size) l) i = 0
  end.
Proof.
  unfold radiusAt. rewrite nth_error_map.
  destruct (nth_error l i); simpl; [apply orElse_zero | reflexivity].
Qed.

Lemma radiusAt_bounds (size : Q) (l : list Q) (i : nat) :
  let r := radiusAt (map (clampRadius size) l) i in
  0 <= r /\ (0 <= size -> r <= size / 2) /\ (size < 0 -> r == 0).
Proof.
  cbv zeta. pose proof (radiusAt_clamped size l i) as H.
  destruct (nth_error l i) as [r0|].
  - rewrite H. repeat split.
    + apply clampRadius_nonneg.
    + apply clampRadius_le_half.
    + apply clampRadius_degenerate.
  - rewrite H. repeat split; try lra.
    intros Hs. apply Qle_shift_div_l; lra.
Qed.

(** C4, as amended.  In [drawRoundedSquare], for every radius argument (a
    number or an array) and with [side] the square side after the line
    width is subtracted, each of the four effective corner radii [r]
    satisfies [0 <= r]; it satisfies [r <= side / 2] whenever [side] is not
    negative, and it is [0] when [side] is negative.  The corner whose input
    radius is negative gets radius [0]. *)
Theorem C4_corner_radii_clamped (lineWidth size : Q) (radii : Radii) :
  let side := size - lineWidth in
  Forall (fun r => 0 <= r /\ (0 <= side -> r <= side / 2) /\ (side < 0 -> r == 0))
         (cornerRadiiList side radii) /\
  (forall i r0, (i < 4)%nat ->
                nth_error (radiiAsArray radii) i = Some r0 -> r0 < 0 ->
                nth i (cornerRadiiList side radii) 0 == 0).
Proof.
  intros side. unfold cornerRadiiList, cornerRadii. cbv zeta. split.
  - repeat constructor; apply radiusAt_bounds.
  - intros i r0 Hi Hnth Hneg.
    pose proof (radiusAt_clamped side (radiiAsArray radii) i) as H.
    rewrite Hnth in H.
    assert (Hz : radiusAt (map (clampRadius side) (radiiAsArray radii)) i == 0)
      by (rewrite H; now apply clampRadius_negative).
    destruct i as [|[|[|[|i]]]]; simpl; try exact Hz. lia.
Qed.

Lemma C4_corner_radii_clamped_witness :
  Forall (fun r => 0 <= r /\ (0 <= 10 - 2 -> r <= (10 - 2) / 2) /\ (10 - 2 < 0 -> r == 0))
         (cornerRadiiList (10 - 2) (RadiiArray [-3; 1; 9; 4])) /\
  nth 0 (cornerRadiiList (10 - 2) (RadiiArray [-3; 1; 9; 4])) 0 == 0.
Proof.
  destruct (C4_corner_radii_clamped 2 10 (RadiiArray [-3; 1; 9; 4])) as [Hall Hneg].
  split; [exact Hall|].
  apply (Hneg 0%nat (-3)); [lia | reflexivity | reflexivity].
Defined.

(** C4, the claim as stated: [0 <= r <= side / 2] for every input.  For an
    eye on a grid of 21 modules painted with [size = 5], the inner box has
    nominal side [3 * cellSize = 5/7] and line width [ceil(cellSize) = 1]:
    the side left after the line width is negative, every corner radius is
    [0], and [0] is above half the side. *)
Lemma C4_radius_above_half_side_when_side_negative :
  let cellSize := 5 / inject_Z 21 in
  let lineWidth := Math_ceil cellSize in
  let size := cellSize * 3 in
  let side := size - lineWidth in
  side < 0 /\
  exists r, In r (cornerRadiiList side (RadiiArray [0; 0; 0; 0])) /\
            ~ (0 <= r /\ r <= side / 2).
Proof.
  cbv zeta. split; [reflexivity|].
  exists 0. split; [left; reflexivity|].
  intros [_ H]. vm_compute in H. apply H. reflexivity.
Qed.

(** ** C5: the two squares of an eye *)

(** C5.  For every cell size, offset, zone origin [(row, col)], colour and
    radii, [drawPositioningPattern] makes exactly two [drawRoundedSquare]
    calls, in this order: an outer square of side [7 * cellSize] at the zone
    origin [(col * cellSize + offset, row * cellSize + offset)] with
    [fill = false], and an inner square of side [3 * cellSize] moved by
    [2 * cellSize] on both axes with [fill = true]; both have line width
    [ceil(cellSize)].  The eye loop of [update] makes that call for each of
    the three zones (0,0), (0,N-7), (N-7,0). *)
Theorem C5_eye_is_outer_ring_and_inner_box
    (cellSize offset : Q) (row col : Z) (color : EyeColor) (radii : option CornerRadii) :
  exists outerBox innerBox,
    positioningPatternCalls cellSize offset row col (Some color) radii
      = inr [outerBox; innerBox] /\
    drawPositioningPattern cellSize offset row col (Some color) radii
      = done (runCall outerBox ++ runCall innerBox) /\
    (callSize outerBox = cellSize * 7 /\
     callX outerBox = inject_Z col * cellSize + offset /\
     callY outerBox = inject_Z row * cellSize + offset /\
     callFill outerBox = false /\
     callLineWidth outerBox = Math_ceil cellSize) /\
    (callSize innerBox = cellSize * 3 /\
     callX innerBox = callX outerBox + cellSize * 2 /\
     callY innerBox = callY outerBox + cellSize * 2 /\
     callFill innerBox = true /\
     callLineWidth innerBox = Math_ceil cellSize) /\
    (forall (N : Z) (eyeRadius : EyeRadiusProp) (eyeColor : option EyeColorProp)
            (fgColor : string) (i : nat),
        drawEye cellSize offset (positioningZonesOf N) eyeRadius eyeColor fgColor i =
        drawPositioningPattern cellSize offset
          (ICoordinates.row (zoneAt (positioningZonesOf N) i))
          (ICoordinates.col (zoneAt (positioningZonesOf N) i))
          (eyeColorFor eyeColor fgColor i) (eyeRadii eyeRadius i)) /\
    (forall N : Z,
        map (fun i => (ICoordinates.row (zoneAt (positioningZonesOf N) i),
                       ICoordinates.col (zoneAt (positioningZonesOf N) i)))
            (seq 0 3)
        = [(0, 0); (0, N - 7); (N - 7, 0)]%Z).
Proof.
  unfold drawPositioningPattern, positioningPatternCalls. cbv zeta.
  destruct radii as [[r | inner outer]|]; destruct color as [c | cin cout];
    cbv beta iota;
    do 2 eexists; (split; [reflexivity|]);
    (split; [cbn [flat_map]; now rewrite app_nil_r|]);
    cbn [callSize callX callY callFill callLineWidth];
    repeat split; reflexivity.
Qed.

(** ** C6: the colours of the eyes *)

Lemma ringColors_calls (cellSize offset : Q) (row col : Z) (color : EyeColor)
    (radii : option CornerRadii) :
  ringColors (positioningPatternCalls cellSize offset row col (Some color) radii) =
  Some match color with
       | EyeColorString c => (c, c)
       | InnerOuterEyeColor inner outer => (outer, inner)
       end.
Proof.
  unfold positioningPatternCalls. cbv zeta.
  destruct radii as [[r | rin rout]|]; destruct color as [c | cin cout]; reflexivity.
Qed.

Lemma ringColors_undefined (cellSize offset : Q) (row col : Z)
    (radii : option CornerRadii) :
  ringColors (positioningPatternCalls cellSize offset row col None radii) = None.
Proof.
  unfold positioningPatternCalls. cbv zeta.
  destruct radii as [[r | rin rout]|]; reflexivity.
Qed.

(** C6.  For each eye index [i]: when no colour is set ([eyeColor] unset or
    empty), both rings of the eye are drawn in [fgColor]; when the colour
    resolved for the eye ([eyeColor] itself, or entry [i] of the array) is
    a single string, both rings use it; when it is an [{inner, outer}]
    pair, the inner box uses [inner] and the outer ring uses [outer].  In
    particular, with an [{inner, outer}] pair for eye 0 only and the other
    two entries of the array at [fgColor], eye 0 has the pair's colours and
    eyes 1 and 2 are drawn entirely in [fgColor]. *)
Theorem C6_eye_colors (cellSize offset : Q) (zones : list ICoordinates.t)
    (eyeRadius : EyeRadiusProp) (eyeColor : option EyeColorProp)
    (fgColor : string) (i : nat) :
  let colors :=
    ringColors (eyeCalls cellSize offset zones eyeRadius eyeColor fgColor i) in
  (eyeColorFalsy eyeColor = true -> colors = Some (fgColor, fgColor)) /\
  (forall c, eyeColor = Some (EyeColorSingle (EyeColorString c)) ->
             c <> EmptyString ->
             colors = Some (c, c)) /\
  (forall inner outer,
      eyeColor = Some (EyeColorSingle (InnerOuterEyeColor inner outer)) ->
      colors = Some (outer, inner)) /\
  (forall l c, eyeColor = Some (EyeColorArray l) ->
               nth_error l i = Some (Some (EyeColorString c)) ->
               colors = Some (c, c)) /\
  (forall l inner outer,
      eyeColor = Some (EyeColorArray l) ->
      nth_error l i = Some (Some (InnerOuterEyeColor inner outer)) ->
      colors = Some (outer, inner)) /\
  (forall inner outer,
      eyeColor = Some (EyeColorArray [Some (InnerOuterEyeColor inner outer);
                                      Some (EyeColorString fgColor);
                                      Some (EyeColorString fgColor)]) ->
      colors = match i with
               | O => Some (outer, inner)
               | S O | S (S O) => Some (fgColor, fgColor)
               | _ => None
               end).
Proof.
  cbv zeta. unfold eyeCalls, eyeColorFor. repeat split.
  - intros ->. now rewrite ringColors_calls.
  - intros c -> Hc. cbn [eyeColorFalsy]. unfold truthyStr.
    apply String.eqb_neq in Hc. rewrite Hc. simpl. now rewrite ringColors_calls.
  - intros inner outer ->. simpl. now rewrite ringColors_calls.
  - intros l c -> Hnth. cbn [eyeColorFalsy]. rewrite Hnth. now rewrite ringColors_calls.
  - intros l inner outer -> Hnth. cbn [eyeColorFalsy]. rewrite Hnth.
    now rewrite ringColors_calls.
  - intros inner outer ->. cbn [eyeColorFalsy].
    destruct i as [|[|[|i]]]; cbn [nth_error]; try now rewrite ringColors_calls.
    destruct i; apply ringColors_undefined.
Qed.

Lemma C6_eye_colors_witness :
  ringColors (eyeCalls (150 / inject_Z 21) 10 (positioningZonesOf 21)
                (eyeRadius defaultProps) None "#000000" 1)
  = Some ("#000000", "#000000")%string /\
  ringColors (eyeCalls (150 / inject_Z 21) 10 (positioningZonesOf 21)
                (eyeRadius defaultProps)
                (Some (EyeColorArray [Some (InnerOuterEyeColor "#FF0000" "#0000FF");
                                      Some (EyeColorString "#000000");
                                      Some (EyeColorString "#000000")])) "#000000" 0)
  = Some ("#0000FF", "#FF0000")%string /\
  ringColors (eyeCalls (150 / inject_Z 21) 10 (positioningZonesOf 21)
                (eyeRadius defaultProps)
                (Some (EyeColorArray [Some (InnerOuterEyeColor "#FF0000" "#0000FF");
                                      Some (EyeColorString "#000000");
                                      Some (EyeColorString "#000000")])) "#000000" 2)
  = Some ("#000000", "#000000")%string.
Proof.
  split; [|split].
  - destruct (C6_eye_colors (150 / inject_Z 21) 10 (positioningZonesOf 21)
                (eyeRadius defaultProps) None "#000000" 1) as [Hunset _].
    apply Hunset. reflexivity.
  - destruct (C6_eye_colors (150 / inject_Z 21) 10 (positioningZonesOf 21)
                (eyeRadius defaultProps)
                (Some (EyeColorArray [Some (InnerOuterEyeColor "#FF0000" "#0000FF");
                                      Some (EyeColorString "#000000");
                                      Some (EyeColorString "#000000")])) "#000000" 0)
      as [_ [_ [_ [_ [Hpair _]]]]].
    eapply Hpair; reflexivity.
  - destruct (C6_eye_colors (150 / inject_Z 21) 10 (positioningZonesOf 21)
                (eyeRadius defaultProps)
                (Some (EyeColorArray [Some (InnerOuterEyeColor "#FF0000" "#0000FF");
                                      Some (EyeColorString "#000000");
                                      Some (EyeColorString "#000000")])) "#000000" 2)
      as [_ [_ [_ [Hstr _]]]].
    eapply Hstr; reflexivity.
Defined.

(** ** C7: the logo options and the synchronous paint *)

(** C7.  Two runs whose configurations differ only in the logo options
    produce the same synchronous paint (canvas set-up, background, module
    shapes, eyes; the same operations, or the same exception).  The
    occlusion test [isCoordinateInImage] takes no part in it: every dark
    cell of the grid that the zone test lets through is painted by its
    style's body, whatever [isCoordinateInImage] answers for it. *)
Theorem C7_logo_options_do_not_change_sync_paint (env : Env) (p1 p2 : IProps) :
  sameExceptLogo p1 p2 ->
  syncPaint env p1 = syncPaint env p2 /\
  painted (update env p1) = painted (update env p2) /\
  (forall row col dWidthLogo dHeightLogo dxLogo dyLogo,
      let qrCode := qrGenerator env (ecLevel p1) (value p1) in
      let N := getModuleCount qrCode in
      let cellSize := size p1 / inject_Z N in
      (0 <= row < N)%Z -> (0 <= col < N)%Z ->
      isDark qrCode row col = true ->
      isInPositioninZone row col (positioningZonesOf N) = false ->
      isCoordinateInImage col row dWidthLogo dHeightLogo dxLogo dyLogo
                          cellSize (logoImage p2) = true ->
      In (row, col) (paintedCells qrCode (positioningZonesOf N)) /\
      issues (ops (syncPaint env p2))
             (paintCell (math env) qrCode cellSize (quietZone p1) (fgColor p1)
                        (qrStyle p1) row col)).
Proof.
  intros Hsame.
  assert (Heq : syncPaint env p1 = syncPaint env p2).
  { destruct Hsame as [Hv [He [Hs [Hq [Hb [Hf [Hr [Hc Hst]]]]]]]].
    unfold syncPaint. now rewrite Hv, He, Hs, Hq, Hb, Hf, Hr, Hc, Hst. }
  split; [exact Heq|]. split; [exact Heq|].
  intros row col dW dH dx dy qrCode N cellSize Hrow Hcol Hdark Hzone _.
  assert (Hin : In (row, col) (paintedCells qrCode (positioningZonesOf N)))
    by (apply in_paintedCells; auto).
  split; [exact Hin|]. rewrite <- Heq.
  exact (syncPaint_issues_cell env p1 row col Hin).
Qed.

Lemma C7_logo_options_do_not_change_sync_paint_witness :
  syncPaint (sampleEnv (allDark 21)) defaultProps
  = syncPaint (sampleEnv (allDark 21)) logoProps /\
  isCoordinateInImage 10 10 30 30 60 60 (150 / inject_Z 21) (logoImage logoProps) = true /\
  In (10, 10)%Z (paintedCells (allDark 21) (positioningZonesOf 21)).
Proof.
  destruct (C7_logo_options_do_not_change_sync_paint
              (sampleEnv (allDark 21)) defaultProps logoProps)
    as [Heq [_ Hpainted]].
  - repeat split.
  - split; [exact Heq|]. split; [reflexivity|].
    apply (Hpainted 10%Z 10%Z 30 30 60 60).
    + simpl. lia.
    + simpl. lia.
    + reflexivity.
    + reflexivity.
    + reflexivity.
Defined.

(** ** C9 and C10: the logo overlay *)

(** The handler installed by [update] is [logoOverlay]; it is installed
    when a logo image is configured and the synchronous paint completed. *)
Lemma update_onload (env : Env) (p : IProps) (image : string) :
  logoImage p = Some image ->
  truthyStr image = true ->
  thrown (syncPaint env p) = None ->
  imageLoad (update env p) =
  Some {| src := image;
          crossOrigin := if enableCORS p then Some "Anonymous"%string else None;
          onload := logoOverlay env p |}.
Proof.
  intros Himg Htruthy Hok. unfold update. now rewrite Hok, Himg, Htruthy.
Qed.

(** C9.  When a logo image is configured and the synchronous paint has
    completed, [update] installs a load handler, and the handler draws the
    image at [(dxLogo + quietZone, dyLogo + quietZone)] with size
    [dWidthLogo] by [dHeightLogo], where [dxLogo = (size - dWidthLogo)/2]
    and [dyLogo = (size - dHeightLogo)/2]; [dWidthLogo] is [0.2 * size] when
    no [logoWidth] is specified and the specified width otherwise;
    [dHeightLogo] is [dWidthLogo] when no [logoHeight] is specified and the
    specified height otherwise. *)
Theorem C9_logo_is_centered (env : Env) (p : IProps) (image : string) :
  logoImage p = Some image ->
  truthyStr image = true ->
  thrown (syncPaint env p) = None ->
  exists load dWidthLogo dHeightLogo,
    imageLoad (update env p) = Some load /\
    src load = image /\
    (let dxLogo := (size p - dWidthLogo) / 2 in
     let dyLogo := (size p - dHeightLogo) / 2 in
     issues (onload load)
       [SetGlobalAlpha (logoOpacity p);
        DrawImage image (dxLogo + quietZone p) (dyLogo + quietZone p)
                  dWidthLogo dHeightLogo;
        Restore]) /\
    (logoWidth p = None -> dWidthLogo = size p * (2 # 10)) /\
    (forall v, logoWidth p = Some v -> ~ v == 0 -> dWidthLogo = v) /\
    (logoHeight p = None -> dHeightLogo = dWidthLogo) /\
    (forall v, logoHeight p = Some v -> ~ v == 0 -> dHeightLogo = v).
Proof.
  intros Himg Htruthy Hok.
  rewrite (update_onload env p image Himg Htruthy Hok).
  eexists. exists (orElse (numberOrZero (logoWidth p)) (size p * (2 # 10))).
  exists (orElse (numberOrZero (logoHeight p))
                 (orElse (numberOrZero (logoWidth p)) (size p * (2 # 10)))).
  split; [reflexivity|]. split; [reflexivity|]. split; [|repeat split].
  - cbv zeta. cbn [onload]. unfold logoOverlay. cbv zeta. rewrite Himg.
    apply issues_app_r, issues_app_r, issues_app_l.
    exists [], []. now rewrite app_nil_r.
  - intros ->. reflexivity.
  - intros v -> Hv. unfold numberOrZero, orElse, truthy.
    destruct (Qeq_bool v 0) eqn:E; [apply Qeq_bool_iff in E; contradiction|].
    simpl. now rewrite E.
  - intros ->. reflexivity.
  - intros v -> Hv. unfold numberOrZero at 1. unfold orElse at 1. unfold truthy.
    destruct (Qeq_bool v 0) eqn:E; [apply Qeq_bool_iff in E; contradiction|].
    simpl. now rewrite E.
Qed.

Lemma C9_logo_is_centered_witness :
  exists load,
    imageLoad (update (sampleEnv (allDark 21)) logoProps) = Some load /\
    In (DrawImage "logo.png" ((150 - 30) / 2 + 10) ((150 - 30) / 2 + 10) 30 30)
       (onload load).
Proof.
  destruct (C9_logo_is_centered (sampleEnv (allDark 21)) logoProps "logo.png")
    as [load [dW [dH [Hload [_ [Hdraw [_ [Hw [_ Hh]]]]]]]]].
  - reflexivity.
  - reflexivity.
  - vm_compute. reflexivity.
  - exists load. split; [exact Hload|].
    rewrite (Hw 30) in Hdraw; [|reflexivity|discriminate].
    rewrite (Hh 30) in Hdraw; [|reflexivity|discriminate].
    apply (issues_In _ _ _ Hdraw). right. left. reflexivity.
Defined.

(** C10.  A [logoWidth], [logoHeight] or [logoPadding] of 0 gives the same
    run (synchronous paint, image request and load handler) as the option
    left out: with [logoWidth = 0] the logo is [0.2 * size] wide, with
    [logoHeight = 0] it is as high as it is wide, and with
    [logoPadding = 0] the handler clears no region behind the logo unless
    [removeQrCodeBehindLogo] is set. *)
Theorem C10_zero_logo_option_is_omitted_option
    (env : Env) (p : IProps) (width height padding : option Q) :
  update env (withLogoSize p (Some 0) height padding)
  = update env (withLogoSize p None height padding) /\
  update env (withLogoSize p width (Some 0) padding)
  = update env (withLogoSize p width None padding) /\
  update env (withLogoSize p width height (Some 0))
  = update env (withLogoSize p width height None) /\
  issues (logoOverlay env (withLogoSize p (Some 0) (Some 0) padding))
    [DrawImage (match logoImage p with Some image => image | None => EmptyString end)
               ((size p - size p * (2 # 10)) / 2 + quietZone p)
               ((size p - size p * (2 # 10)) / 2 + quietZone p)
               (size p * (2 # 10)) (size p * (2 # 10))] /\
  (removeQrCodeBehindLogo p = false ->
   existsb clearsRegion (logoOverlay env (withLogoSize p width height (Some 0))) = false).
Proof.
  split; [reflexivity|]. split; [reflexivity|]. split; [reflexivity|]. split.
  - unfold logoOverlay. cbv zeta. cbn [withLogoSize logoWidth logoHeight size quietZone
                                        logoImage numberOrZero].
    apply issues_app_r, issues_app_r, issues_app_l.
    exists [SetGlobalAlpha (logoOpacity (withLogoSize p (Some 0) (Some 0) padding))],
           [Restore].
    reflexivity.
  - intros Hremove. unfold logoOverlay. cbv zeta.
    cbn [withLogoSize removeQrCodeBehindLogo logoPadding logoOnLoad numberOrZero].
    rewrite Hremove.
    change (truthy (if truthy 0 then 0 else 0)) with false. cbn [orb app existsb clearsRegion].
    destruct (logoOnLoad p); reflexivity.
Qed.

Lemma C10_zero_logo_option_is_omitted_option_witness :
  existsb clearsRegion
    (logoOverlay (sampleEnv (allDark 21))
                 (withLogoSize defaultProps (Some 30) (Some 30) (Some 0))) = false.
Proof.
  apply (C10_zero_logo_option_is_omitted_option
           (sampleEnv (allDark 21)) defaultProps (Some 30) (Some 30) None).
  reflexivity.
Defined.

(** * Further properties *)

(** ** utf16to8 *)

Lemma allWithPrefix_sound (P : Z -> bool) (bits : nat) :
  forall prefix c,
    allWithPrefix P bits prefix = true ->
    (prefix * 2 ^ Z.of_nat bits <= c < (prefix + 1) * 2 ^ Z.of_nat bits)%Z ->
    P c = true.
Proof.
  induction bits as [|bits IH]; intros prefix c Hall Hc.
  - simpl in Hall, Hc. assert (c = prefix) by lia. now subst.
  - cbn [allWithPrefix] in Hall. apply andb_true_iff in Hall. destruct Hall as [H0 H1].
    rewrite Nat2Z.inj_succ, Z.pow_succ_r in Hc by lia.
    assert (Hk : (0 < 2 ^ Z.of_nat bits)%Z) by (apply Z.pow_pos_nonneg; lia).
    destruct (Z_lt_le_dec c ((2 * prefix + 1) * 2 ^ Z.of_nat bits)) as [Hlt | Hge].
    + apply (IH (2 * prefix)%Z); [exact H0 | nia].
    + apply (IH (2 * prefix + 1)%Z); [exact H1 | nia].
Qed.

Lemma unitEncodingOk_all : allWithPrefix unitEncodingOk 16 0 = true.
Proof. vm_compute. reflexivity. Qed.

Lemma unitEncodingOk_unit (c : Z) : isCodeUnit c -> unitEncodingOk c = true.
Proof.
  intros Hc. apply (allWithPrefix_sound unitEncodingOk 16 0 c unitEncodingOk_all).
  unfold isCodeUnit in Hc. simpl. lia.
Qed.

Lemma utf8to16_unit (c : Z) (rest : list Z) :
  isCodeUnit c ->
  utf8to16 (utf16to8Char c ++ rest) = option_map (cons c) (utf8to16 rest).
Proof.
  intros Hc. pose proof (unitEncodingOk_unit c Hc) as Hok.
  unfold unitEncodingOk in Hok. apply andb_true_iff in Hok. destruct Hok as [_ Hok].
  destruct (utf16to8Char c) as [|b0 [|b1 [|b2 [|b3 l]]]]; try discriminate Hok.
  - apply andb_true_iff in Hok. destruct Hok as [Hlt Heq].
    apply Z.eqb_eq in Heq. subst b0. simpl. now rewrite Hlt.
  - apply andb_true_iff in Hok. destruct Hok as [Hr Heq].
    apply andb_true_iff in Hr. destruct Hr as [Hge Hlt].
    apply Z.eqb_eq in Heq. cbn [app utf8to16].
    assert (Hn : (b0 <? 0x80)%Z = false) by (apply Z.ltb_ge; apply Z.leb_le in Hge; lia).
    now rewrite Hn, Hlt, Heq.
  - apply andb_true_iff in Hok. destruct Hok as [Hge Heq].
    apply Z.eqb_eq in Heq. cbn [app utf8to16].
    assert (Hn : (b0 <? 0x80)%Z = false) by (apply Z.ltb_ge; apply Z.leb_le in Hge; lia).
    assert (Hn' : (b0 <? 0xe0)%Z = false) by (apply Z.ltb_ge; apply Z.leb_le in Hge; lia).
    now rewrite Hn, Hn', Heq.
Qed.

(** X1.  [utf16to8] loses nothing: reading its output back as one, two or
    three units per lead unit gives the input string again, for every string
    of UTF-16 code units; so two different strings never get the same
    encoding. *)
Theorem X1_utf16to8_round_trip (str : list Z) :
  Forall isCodeUnit str ->
  utf8to16 (utf16to8 str) = Some str /\
  (forall str', Forall isCodeUnit str' -> utf16to8 str = utf16to8 str' -> str = str').
Proof.
  assert (Hrt : forall s, Forall isCodeUnit s -> utf8to16 (utf16to8 s) = Some s).
  { induction s as [|c s IH]; intros Hs; [reflexivity|].
    inversion Hs as [|? ? Hc Hs']; subst.
    unfold utf16to8. cbn [flat_map]. rewrite (utf8to16_unit c _ Hc).
    fold (utf16to8 s). now rewrite (IH Hs'). }
  intros Hstr. split; [now apply Hrt|].
  intros str' Hstr' Heq.
  pose proof (Hrt str Hstr) as H1. pose proof (Hrt str' Hstr') as H2.
  rewrite Heq in H1. congruence.
Qed.

Lemma X1_utf16to8_round_trip_witness :
  utf8to16 (utf16to8 [0x68; 0xe9; 0x20ac; 0; 0xd83d; 0xde00]%Z)
  = Some [0x68; 0xe9; 0x20ac; 0; 0xd83d; 0xde00]%Z.
Proof.
  apply (X1_utf16to8_round_trip [0x68; 0xe9; 0x20ac; 0; 0xd83d; 0xde00]%Z).
  repeat constructor; unfold isCodeUnit; lia.
Defined.

(** X2.  Every unit that [utf16to8] emits is between 1 and 255: the output
    is a byte string without a NUL (the unit 0 is written as the two bytes
    0xc0 0x80), and each input unit gives between one and three bytes. *)
Theorem X2_utf16to8_bytes (str : list Z) :
  Forall isCodeUnit str ->
  Forall (fun b => (1 <= b <= 255)%Z) (utf16to8 str) /\
  (length str <= length (utf16to8 str) <= 3 * length str)%nat.
Proof.
  induction str as [|c s IH]; intros Hs; [split; [constructor|simpl; lia]|].
  inversion Hs as [|? ? Hc Hs']; subst. destruct (IH Hs') as [Hb Hl].
  pose proof (unitEncodingOk_unit c Hc) as Hok.
  unfold unitEncodingOk in Hok. apply andb_true_iff in Hok. destruct Hok as [Hbytes Hshape].
  unfold utf16to8 in *. cbn [flat_map]. split.
  - apply Forall_app. split; [|exact Hb].
    apply Forall_forall. intros b Hin. rewrite forallb_forall in Hbytes.
    specialize (Hbytes b Hin). apply andb_true_iff in Hbytes.
    destruct Hbytes as [H1 H2]. apply Z.leb_le in H1. apply Z.leb_le in H2. lia.
  - rewrite length_app.
    destruct (utf16to8Char c) as [|b0 [|b1 [|b2 [|b3 l]]]]; try discriminate Hshape;
      simpl in *; lia.
Qed.

Lemma X2_utf16to8_bytes_witness :
  Forall (fun b => (1 <= b <= 255)%Z) (utf16to8 [0; 0x41; 0x7ff; 0xffff]%Z).
Proof.
  apply (X2_utf16to8_bytes [0; 0x41; 0x7ff; 0xffff]%Z).
  repeat constructor; unfold isCodeUnit; lia.
Defined.

(** X3.  A string whose units are all between 1 and 0x7f (ASCII without
    NUL) is returned as it is. *)
Theorem X3_utf16to8_ascii_unchanged (str : list Z) :
  Forall (fun c => (1 <= c <= 0x7f)%Z) str -> utf16to8 str = str.
Proof.
  induction str as [|c s IH]; intros Hs; [reflexivity|].
  inversion Hs as [|? ? Hc Hs']; subst.
  unfold utf16to8 in *. cbn [flat_map]. rewrite (IH Hs'). unfold utf16to8Char.
  assert (H1 : (1 <=? c)%Z = true) by (apply Z.leb_le; lia).
  assert (H2 : (c <=? 127)%Z = true) by (apply Z.leb_le; lia).
  now rewrite H1, H2.
Qed.

Lemma X3_utf16to8_ascii_unchanged_witness :
  utf16to8 [0x68; 0x74; 0x74; 0x70; 0x73; 0x3a]%Z = [0x68; 0x74; 0x74; 0x70; 0x73; 0x3a]%Z.
Proof.
  apply X3_utf16to8_ascii_unchanged. repeat constructor; lia.
Defined.

(** ** The module loops *)

(** X4.  The style branches call [isInPositioninZone(row, col, zones)]
    although the parameters are declared [(col, row, zones)].  On the three
    zones of [update] the exchange changes nothing: the test gives the same
    answer with the two arguments swapped. *)
Theorem X4_zone_test_argument_order_is_harmless (N row col : Z) :
  isInPositioninZone row col (positioningZonesOf N)
  = isInPositioninZone col row (positioningZonesOf N).
Proof.
  rewrite !isInPositioninZone_spec. unfold inExclusionZone, inBlock8.
  apply eq_true_iff_eq.
  rewrite !orb_true_iff, !andb_true_iff, !Z.leb_le. intuition lia.
Qed.

(** X5.  In every style, the cells for which a module body runs are exactly
    the cells of the grid that are dark and outside the three blocks of rows
    and columns [a .. a+7] anchored at (0,0), (0,N-7) and (N-7,0).  So a
    light module, a cell outside the grid and a cell of a 7 by 7 finder zone
    are never painted by the module loops. *)
Theorem X5_painted_cells (qrCode : QRCodeModel) (row col : Z) :
  let N := getModuleCount qrCode in
  let painted := In (row, col) (paintedCells qrCode (positioningZonesOf N)) in
  (painted <->
   (0 <= row < N)%Z /\ (0 <= col < N)%Z /\
   isDark qrCode row col = true /\ inExclusionZone N row col = false) /\
  (isDark qrCode row col = false -> ~ painted) /\
  (inFinderZone N row col = true -> ~ painted) /\
  (forall (M : MathLib) (cellSize offset : Q) (fgColor : string)
          (qrStyle : option string),
      paintModules M qrCode cellSize offset fgColor qrStyle (positioningZonesOf N) =
      stylePrelude fgColor qrStyle ++
      flat_map (fun cell => paintCell M qrCode cellSize offset fgColor qrStyle
                                      (fst cell) (snd cell))
               (paintedCells qrCode (positioningZonesOf N))).
Proof.
  cbv zeta. split; [apply painted_iff|]. split; [|split].
  - intros Hlight Hin. apply in_paintedCells in Hin.
    destruct Hin as [_ [_ [Hd _]]]. congruence.
  - apply finder_zone_never_painted.
  - intros. apply paintModules_cells.
Qed.

Lemma X5_painted_cells_witness :
  In (8, 8)%Z (paintedCells (allDark 21) (positioningZonesOf 21)) /\
  ~ In (3, 17)%Z (paintedCells (allDark 21) (positioningZonesOf 21)) /\
  ~ In (8, 9)%Z (paintedCells (singleDark 21 8 8) (positioningZonesOf 21)).
Proof.
  split; [|split].
  - destruct (X5_painted_cells (allDark 21) 8 8) as [Hiff _].
    apply Hiff. simpl. repeat split; lia.
  - destruct (X5_painted_cells (allDark 21) 3 17) as [_ [_ [Hzone _]]].
    apply Hzone. reflexivity.
  - destruct (X5_painted_cells (singleDark 21 8 8) 8 9) as [_ [Hlight _]].
    apply Hlight. reflexivity.
Defined.

Lemma range_NoDup (n : Z) : NoDup (range n).
Proof.
  unfold range. generalize (seq_NoDup (Z.to_nat n) 0).
  induction 1 as [|k l Hk Hl IH]; [constructor|].
  cbn [map]. constructor; [|exact IH].
  intros Hin. apply in_map_iff in Hin. destruct Hin as [k' [Heq Hin]].
  apply Nat2Z.inj in Heq. subst k'. contradiction.
Qed.

Lemma nested_cells_NoDup (cond : Z -> Z -> bool) (rows cols : list Z) :
  NoDup rows -> NoDup cols ->
  NoDup (flat_map (fun r => flat_map (fun c => if cond r c then [(r, c)] else []) cols)
                  rows).
Proof.
  intros Hrows Hcols. induction Hrows as [|r rows Hnotin Hrows IH]; [constructor|].
  cbn [flat_map]. apply NoDup_app.
  - clear IH Hnotin. induction Hcols as [|c cols Hc Hcols IHc]; [constructor|].
    cbn [flat_map]. destruct (cond r c); [|exact IHc].
    simpl. constructor; [|exact IHc].
    intros Hin. apply in_flat_map in Hin. destruct Hin as [c' [Hc' Hin]].
    destruct (cond r c'); [|destruct Hin].
    destruct Hin as [Heq | []]. inversion Heq; subst. contradiction.
  - exact IH.
  - intros [r' c'] Hin1 Hin2.
    apply in_flat_map in Hin1. destruct Hin1 as [c1 [_ Hin1]].
    destruct (cond r c1); [|destruct Hin1].
    destruct Hin1 as [Heq | []]. inversion Heq; subst.
    apply in_flat_map in Hin2. destruct Hin2 as [r2 [Hr2 Hin2]].
    apply in_flat_map in Hin2. destruct Hin2 as [c2 [_ Hin2]].
    destruct (cond r2 c2); [|destruct Hin2].
    destruct Hin2 as [Heq2 | []]. inversion Heq2; subst. contradiction.
Qed.

(** X6.  The module loops run the body at most once per cell: the list of
    painted cells has no repetition, and it has at most N * N entries. *)
Theorem X6_each_cell_painted_at_most_once (qrCode : QRCodeModel)
    (zones : list ICoordinates.t) :
  NoDup (paintedCells qrCode zones) /\
  (Z.of_nat (length (paintedCells qrCode zones))
   <= Z.max 0 (getModuleCount qrCode) * Z.max 0 (getModuleCount qrCode))%Z.
Proof.
  split.
  - unfold paintedCells, forEachModule.
    apply (nested_cells_NoDup
             (fun r c => isDark qrCode r c && negb (isInPositioninZone r c zones)));
      apply range_NoDup.
  - unfold paintedCells, forEachModule.
    assert (Hlen : forall rows cols : list Z,
               (length (flat_map (fun row => flat_map (fun col =>
                  if isDark qrCode row col && negb (isInPositioninZone row col zones)
                  then [(row, col)] else []) cols) rows)
                <= length rows * length cols)%nat).
    { intros rows cols. induction rows as [|r rows IH]; [simpl; lia|].
      cbn [flat_map]. rewrite length_app. cbn [length].
      assert (Hrow : (length (flat_map (fun col =>
                  if isDark qrCode r col && negb (isInPositioninZone r col zones)
                  then [(r, col)] else []) cols) <= length cols)%nat).
      { clear IH. induction cols as [|c cols IHc]; [simpl; lia|].
        cbn [flat_map]. rewrite length_app.
        destruct (isDark qrCode r c && negb (isInPositioninZone r c zones)); simpl; lia. }
      lia. }
    specialize (Hlen (range (getModuleCount qrCode)) (range (getModuleCount qrCode))).
    unfold range in Hlen at 3 4. rewrite length_map, length_seq in Hlen.
    assert (Hn : Z.of_nat (Z.to_nat (getModuleCount qrCode))
                 = Z.max 0 (getModuleCount qrCode)) by lia.
    rewrite <- Hn. nia.
Qed.

(** The checked read throws outside the grid. *)
Example isDarkChecked_outside :
  isDarkChecked (allDark 21) (-1) 0 = None /\
  isDarkChecked (allDark 21) 0 21 = None /\
  isDarkChecked (allDark 21) 20 0 = Some true.
Proof. repeat split. Qed.

Lemma isDarkChecked_in_grid (qrCode : QRCodeModel) (row col : Z) :
  (0 <= row < getModuleCount qrCode)%Z -> (0 <= col < getModuleCount qrCode)%Z ->
  isDarkChecked qrCode row col = Some (isDark qrCode row col).
Proof.
  intros Hrow Hcol. unfold isDarkChecked.
  assert (H1 : (0 <=? row)%Z = true) by (apply Z.leb_le; lia).
  assert (H2 : (row <? getModuleCount qrCode)%Z = true) by (apply Z.ltb_lt; lia).
  assert (H3 : (0 <=? col)%Z = true) by (apply Z.leb_le; lia).
  assert (H4 : (col <? getModuleCount qrCode)%Z = true) by (apply Z.ltb_lt; lia).
  now rewrite H1, H2, H3, H4.
Qed.

(** A loop none of whose bodies throws runs them all. *)
Lemma forLoop_completes {T : Type} (indices : list Z) (body : Z -> option (list T))
    (f : Z -> list T) :
  (forall i, In i indices -> body i = Some (f i)) ->
  forLoop indices body = Some (flat_map f indices).
Proof.
  induction indices as [|i rest IH]; intros H; [reflexivity|].
  cbn [forLoop flat_map]. rewrite (H i (or_introl eq_refl)).
  rewrite IH; [reflexivity|]. intros j Hj. apply H. now right.
Qed.

Lemma forEachModuleChecked_completes {T : Type} (qrCode : QRCodeModel)
    (zones : list ICoordinates.t) (paintChecked : Z -> Z -> option (list T))
    (paint : Z -> Z -> list T) :
  (forall row col,
      (0 <= row < getModuleCount qrCode)%Z -> (0 <= col < getModuleCount qrCode)%Z ->
      paintChecked row col = Some (paint row col)) ->
  forEachModuleChecked qrCode zones paintChecked
  = Some (forEachModule qrCode zones paint).
Proof.
  intros Hpaint. unfold forEachModuleChecked, forEachModule. cbv zeta.
  apply (forLoop_completes _ _
           (fun row =>
              flat_map (fun col =>
                          if isDark qrCode row col
                             && negb (isInPositioninZone row col zones)
                          then paint row col else [])
                       (range (getModuleCount qrCode)))).
  intros row Hrow. apply in_range in Hrow.
  apply (forLoop_completes _ _
           (fun col =>
              if isDark qrCode row col && negb (isInPositioninZone row col zones)
              then paint row col else [])).
  intros col Hcol. apply in_range in Hcol.
  rewrite (isDarkChecked_in_grid qrCode row col Hrow Hcol).
  destruct (isDark qrCode row col && negb (isInPositioninZone row col zones));
    [now apply Hpaint | reflexivity].
Qed.

(** In a cell of the grid, each neighbour read of the fluid branch is made
    only where its bounds test has passed, and so inside the grid. *)
Lemma paintFluidChecked_completes (A : Arith) (qrCode : QRCodeModel)
    (cellSize offset : Q) (fgColor : string) (row col : Z) :
  (0 <= row < getModuleCount qrCode)%Z -> (0 <= col < getModuleCount qrCode)%Z ->
  paintFluidChecked A qrCode cellSize offset fgColor row col
  = Some (paintFluidIn A qrCode cellSize offset fgColor row col).
Proof.
  intros Hrow Hcol.
  assert (Hup : andAlso (0 <? row)%Z (isDarkChecked qrCode (row - 1) col)
                = Some (isDarkUp qrCode row col)).
  { unfold andAlso, isDarkUp. destruct (Z.ltb_spec 0 row); [|reflexivity].
    now rewrite isDarkChecked_in_grid by lia. }
  assert (Hdown : andAlso (row <? getModuleCount qrCode - 1)%Z
                          (isDarkChecked qrCode (row + 1) col)
                  = Some (isDarkDown qrCode row col)).
  { unfold andAlso, isDarkDown.
    destruct (Z.ltb_spec row (getModuleCount qrCode - 1)); [|reflexivity].
    now rewrite isDarkChecked_in_grid by lia. }
  assert (Hleft : andAlso (0 <? col)%Z (isDarkChecked qrCode row (col - 1))
                  = Some (isDarkLeft qrCode row col)).
  { unfold andAlso, isDarkLeft. destruct (Z.ltb_spec 0 col); [|reflexivity].
    now rewrite isDarkChecked_in_grid by lia. }
  assert (Hright : andAlso (col <? getModuleCount qrCode - 1)%Z
                           (isDarkChecked qrCode row (col + 1))
                   = Some (isDarkRight qrCode row col)).
  { unfold andAlso, isDarkRight.
    destruct (Z.ltb_spec col (getModuleCount qrCode - 1)); [|reflexivity].
    now rewrite isDarkChecked_in_grid by lia. }
  unfold paintFluidChecked. cbv zeta. rewrite Hup, Hdown, Hleft, Hright. reflexivity.
Qed.

(** A neighbour read made before its bounds test throws on the first row:
    the guard is what keeps the read inside the grid. *)
Example unguarded_neighbor_read_throws :
  isDarkChecked (allDark 21) (0 - 1) 0 = None /\
  andAlso (0 <? 0)%Z (isDarkChecked (allDark 21) (0 - 1) 0) = Some false.
Proof. split; reflexivity. Qed.

(** X7.  No style reads a module outside the grid, where the encoder's
    [isDark] throws: run with the checked read, the style chain completes
    for every grid, every style and every arithmetic, and it paints what
    the chain paints with an unchecked read.  In the fluid style each of
    the four neighbour reads is the right operand of [&&] behind its bounds
    test, so it is made only inside the grid. *)
Theorem X7_modules_outside_grid_never_read (A : Arith) (M : MathLib)
    (qrCode : QRCodeModel) (cellSize offset : Q) (fgColor : string)
    (qrStyle : option string) (zones : list ICoordinates.t) :
  paintModulesChecked A M qrCode cellSize offset fgColor qrStyle zones
  = Some (paintModulesIn A M qrCode cellSize offset fgColor qrStyle zones).
Proof.
  unfold paintModulesChecked, paintModulesIn. cbv zeta.
  repeat match goal with
         | |- context [styleIs qrStyle ?n] => destruct (styleIs qrStyle n)
         end;
    try (erewrite forEachModuleChecked_completes; [reflexivity|];
         intros row col Hrow Hcol; reflexivity).
  erewrite forEachModuleChecked_completes; [reflexivity|].
  intros row col Hrow Hcol. now apply paintFluidChecked_completes.
Qed.

(** ** Cell rectangles *)

Lemma Math_floor_le_round (a : Q) : Math_floor a <= Math_round a.
Proof.
  unfold Math_floor, Math_round. rewrite <- Zle_Qle.
  apply Qfloor_resp_le. lra.
Qed.

Lemma Math_round_le_ceil (a : Q) : Math_round a <= Math_ceil a.
Proof.
  unfold Math_round, Math_ceil. rewrite <- Zle_Qle.
  pose proof (Qfloor_le (a + (1 # 2))) as Hf.
  pose proof (Qle_ceiling a) as Hc.
  assert (Hlt : inject_Z (Qfloor (a + (1 # 2))) < inject_Z (Qceiling a + 1)).
  { rewrite inject_Z_plus.
    generalize dependent (inject_Z (Qfloor (a + (1 # 2)))).
    generalize dependent (inject_Z (Qceiling a)). intros c Hc f Hf.
    change (inject_Z 1) with 1. lra. }
  rewrite <- Zlt_Qlt in Hlt. lia.
Qed.

Lemma cell_extent_upper (cellSize : Q) (i : Z) :
  Math_ceil (inject_Z (i + 1) * cellSize) - Math_floor (inject_Z i * cellSize)
  < cellSize + 2.
Proof.
  unfold Math_ceil, Math_floor.
  pose proof (Qceiling_lt (inject_Z (i + 1) * cellSize)) as Hc.
  pose proof (Qlt_floor (inject_Z i * cellSize)) as Hf.
  rewrite !inject_Z_plus in Hf. unfold Zminus in Hc. rewrite inject_Z_plus in Hc.
  rewrite inject_Z_plus in Hc at 2.
  assert (He : (inject_Z i + inject_Z 1) * cellSize == inject_Z i * cellSize + cellSize)
    by ring.
  rewrite He in Hc. clear He.
  change (inject_Z 1) with 1 in *. change (inject_Z (- (1))) with (-1) in *.
  generalize dependent (inject_Z (Qceiling (inject_Z (i + 1) * cellSize))).
  generalize dependent (inject_Z (Qfloor (inject_Z i * cellSize))).
  generalize (inject_Z i * cellSize). intros a f Hf c Hc. lra.
Qed.

(** X8.  In the default (squares) style the rectangles of two neighbouring
    cells leave no gap: the rectangle of cell (row, col) reaches at least
    the left edge of the rectangle of (row, col + 1) and the top edge of the
    rectangle of (row + 1, col), for every cell size.  Each rectangle is at
    least [cellSize] and less than [cellSize + 2] wide and high. *)
Theorem X8_square_cells_leave_no_gap (cellSize offset : Q) (fgColor : string)
    (row col : Z) :
  exists x y w h xRight yBelow wRight hRight wBelow hBelow,
    paintSquare cellSize offset fgColor row col
      = [SetFillStyle fgColor; FillRect x y w h] /\
    paintSquare cellSize offset fgColor row (col + 1)
      = [SetFillStyle fgColor; FillRect xRight y wRight hRight] /\
    paintSquare cellSize offset fgColor (row + 1) col
      = [SetFillStyle fgColor; FillRect x yBelow wBelow hBelow] /\
    xRight <= x + w /\ yBelow <= y + h /\
    cellSize <= w /\ w < cellSize + 2 /\
    cellSize <= h /\ h < cellSize + 2.
Proof.
  unfold paintSquare. cbv zeta. do 10 eexists.
  split; [reflexivity|]. split; [reflexivity|]. split; [reflexivity|].
  assert (Hgap : forall i : Z,
             Math_round (inject_Z (i + 1) * cellSize) + offset <=
             Math_round (inject_Z i * cellSize) + offset +
             (Math_ceil (inject_Z (i + 1) * cellSize) - Math_floor (inject_Z i * cellSize))).
  { intros i.
    pose proof (Math_floor_le_round (inject_Z i * cellSize)).
    pose proof (Math_round_le_ceil (inject_Z (i + 1) * cellSize)). lra. }
  repeat split.
  - apply Hgap.
  - apply Hgap.
  - apply cell_extent.
  - apply cell_extent_upper.
  - apply cell_extent.
  - apply cell_extent_upper.
Qed.

(** ** The rounded square *)

Ltac destruct_truthy :=
  repeat match goal with
         | |- context [truthy ?r] => destruct (truthy r)
         end.

(** X9.  When the line width does not exceed the side, every point of the
    path of [drawRoundedSquare] (vertices, curve ends and control points)
    lies in the square moved inwards by half the line width on each side;
    the stroke, which extends half the line width around the path, therefore
    stays inside the nominal square [(x, y, size)]. *)
Theorem X9_rounded_square_path_inside_inset_square
    (lineWidth x y size : Q) (color : string) (radii : Radii) (fill : bool) :
  lineWidth <= size ->
  Forall (inSquare (x + lineWidth / 2) (y + lineWidth / 2) (size - lineWidth))
         (flat_map pointsOf (drawRoundedSquare lineWidth x y size color radii fill)).
Proof.
  intros Hside. unfold drawRoundedSquare, cornerRadii. cbv zeta.
  pose proof (radiusAt_bounds (size - lineWidth) (radiiAsArray radii) 0) as [H0 [H0' _]].
  pose proof (radiusAt_bounds (size - lineWidth) (radiiAsArray radii) 1) as [H1 [H1' _]].
  pose proof (radiusAt_bounds (size - lineWidth) (radiiAsArray radii) 2) as [H2 [H2' _]].
  pose proof (radiusAt_bounds (size - lineWidth) (radiiAsArray radii) 3) as [H3 [H3' _]].
  assert (Hs : 0 <= size - lineWidth) by lra.
  specialize (H0' Hs). specialize (H1' Hs). specialize (H2' Hs). specialize (H3' Hs).
  assert (Hhalf : (size - lineWidth) / 2 == (size - lineWidth) * (1 # 2)) by field.
  rewrite Hhalf in H0', H1', H2', H3'. clear Hhalf.
  generalize dependent (radiusAt (map (clampRadius (size - lineWidth)) (radiiAsArray radii)) 0).
  generalize dependent (radiusAt (map (clampRadius (size - lineWidth)) (radiiAsArray radii)) 1).
  generalize dependent (radiusAt (map (clampRadius (size - lineWidth)) (radiiAsArray radii)) 2).
  generalize dependent (radiusAt (map (clampRadius (size - lineWidth)) (radiiAsArray radii)) 3).
  intros r3 H3 H3' r2 H2 H2' r1 H1 H1' r0 H0 H0'.
  generalize dependent (lineWidth / 2). intros half.
  generalize dependent (size - lineWidth). intros side Hs H3' H2' H1' H0'.
  destruct_truthy; destruct fill; cbn [app flat_map pointsOf];
    repeat constructor; cbn [fst snd]; lra.
Qed.

Lemma X9_rounded_square_path_inside_inset_square_witness :
  Forall (inSquare (10 + 8 / 2) (10 + 8 / 2) (50 - 8))
         (flat_map pointsOf
            (drawRoundedSquare 8 10 10 50 "#000000" (RadiiArray [30; 0; -4; 5]) true)).
Proof.
  apply X9_rounded_square_path_inside_inset_square. lra.
Defined.

Lemma drawRoundedSquare_counts
    (lineWidth x y size : Q) (color : string) (radii : Radii) (fill : bool) :
  let path := drawRoundedSquare lineWidth x y size color radii fill in
  length (filter isCurve path)
  = length (filter truthy (cornerRadiiList (size - lineWidth) radii)) /\
  length (filter isStroke path) = 1%nat /\
  length (filter isFill path) = (if fill then 1 else 0)%nat.
Proof.
  cbv zeta. unfold drawRoundedSquare, cornerRadiiList, cornerRadii. cbv zeta.
  generalize (radiusAt (map (clampRadius (size - lineWidth)) (radiiAsArray radii)) 0).
  generalize (radiusAt (map (clampRadius (size - lineWidth)) (radiiAsArray radii)) 1).
  generalize (radiusAt (map (clampRadius (size - lineWidth)) (radiiAsArray radii)) 2).
  generalize (radiusAt (map (clampRadius (size - lineWidth)) (radiiAsArray radii)) 3).
  intros r3 r2 r1 r0. cbn [filter].
  destruct (truthy r0), (truthy r1), (truthy r2), (truthy r3), fill;
    repeat split; reflexivity.
Qed.


Lemma truthy_pos (r : Q) : 0 <= r -> truthy r = true -> 0 < r.
Proof.
  unfold truthy. intros Hr Ht. apply negb_true_iff in Ht.
  apply Qeq_bool_neq in Ht. apply Qle_lteq in Hr.
  destruct Hr as [Hr | Hr]; [exact Hr|]. exfalso. apply Ht. now symmetry.
Qed.

Lemma truthy_zero (r : Q) : truthy r = false -> r == 0.
Proof.
  unfold truthy. intros Ht. apply negb_false_iff in Ht. now apply Qeq_bool_iff.
Qed.

Ltac radius_facts :=
  repeat match goal with
         | H : truthy ?r = true |- _ => apply (truthy_pos r) in H; [|assumption]
         | H : truthy ?r = false |- _ => apply truthy_zero in H
         end.

(** X10.  [drawRoundedSquare] turns each corner of the square (inset by
    half the line width) whose effective radius is not zero by one
    quadratic curve: its control point is that corner, and it starts and
    ends at the distance of the radius from it.  A corner whose effective
    radius is zero is the control point of no curve, and the path has no
    other curves: their number is the number of non-zero effective radii.
    The path is stroked once, and filled once exactly when [fill] is
    set. *)
Theorem X10_rounded_square_curves_and_fill
    (lineWidth x y size : Q) (color : string) (radii : Radii) (fill : bool) :
  let path := drawRoundedSquare lineWidth x y size color radii fill in
  let side := size - lineWidth in
  let corner := cornerPoint (x + lineWidth / 2) (y + lineWidth / 2) side side in
  (forall c, roundedAt path (corner c) (cornerRadius side radii c)
             <-> truthy (cornerRadius side radii c) = true) /\
  (forall c, truthy (cornerRadius side radii c) = false ->
             ~ exists cv, In cv (curves path) /\ samePoint (curveControl cv) (corner c)) /\
  length (filter isCurve path)
  = length (filter truthy (cornerRadiiList side radii)) /\
  length (filter isStroke path) = 1%nat /\
  length (filter isFill path) = (if fill then 1 else 0)%nat.
Proof.
  intros path side corner.
  pose proof (drawRoundedSquare_counts lineWidth x y size color radii fill) as Hcounts.
  assert (Hnone : forall c, truthy (cornerRadius side radii c) = false ->
             ~ exists cv, In cv (curves path) /\ samePoint (curveControl cv) (corner c)).
  { clear Hcounts. subst path side corner.
    unfold cornerRadius, drawRoundedSquare, cornerRadii. cbv zeta.
    pose proof (radiusAt_bounds (size - lineWidth) (radiiAsArray radii) 0) as [H0 [H0' H0'']].
    pose proof (radiusAt_bounds (size - lineWidth) (radiiAsArray radii) 1) as [H1 [H1' H1'']].
    pose proof (radiusAt_bounds (size - lineWidth) (radiiAsArray radii) 2) as [H2 [H2' H2'']].
    pose proof (radiusAt_bounds (size - lineWidth) (radiiAsArray radii) 3) as [H3 [H3' H3'']].
    assert (Hhalf : (size - lineWidth) / 2 == (size - lineWidth) * (1 # 2)) by field.
    rewrite Hhalf in H0', H1', H2', H3'. clear Hhalf.
    generalize dependent (radiusAt (map (clampRadius (size - lineWidth)) (radiiAsArray radii)) 0).
    generalize dependent (radiusAt (map (clampRadius (size - lineWidth)) (radiiAsArray radii)) 1).
    generalize dependent (radiusAt (map (clampRadius (size - lineWidth)) (radiiAsArray radii)) 2).
    generalize dependent (radiusAt (map (clampRadius (size - lineWidth)) (radiiAsArray radii)) 3).
    intros r3 H3 H3' H3'' r2 H2 H2' H2'' r1 H1 H1' H1'' r0 H0 H0' H0''.
    generalize dependent (lineWidth / 2). intros half.
    generalize dependent (size - lineWidth). intros s H3' H3'' H2' H2'' H1' H1'' H0' H0''.
    intros c Hc Hcurve. unfold curves, samePoint in Hcurve.
    destruct (Qlt_le_dec s 0) as [Hs | Hs];
      [ specialize (H0'' Hs); specialize (H1'' Hs); specialize (H2'' Hs);
        specialize (H3'' Hs); clear H0' H1' H2' H3'
      | specialize (H0' Hs); specialize (H1' Hs); specialize (H2' Hs);
        specialize (H3' Hs); clear H0'' H1'' H2'' H3'' ];
      destruct c; cbv beta iota in Hc;
        destruct (truthy r0) eqn:T0, (truthy r1) eqn:T1, (truthy r2) eqn:T2,
                 (truthy r3) eqn:T3;
        try discriminate Hc; radius_facts; destruct fill;
        cbn [app curvesFrom cornerPoint fst snd] in Hcurve; no_curve Hcurve. }
  split; [|split; [exact Hnone | exact Hcounts]].
  intros c. split.
  - intros [cv [Hin [Hctl _]]].
    destruct (truthy (cornerRadius side radii c)) eqn:Hc; [reflexivity|].
    exfalso. apply (Hnone c Hc). exists cv. auto.
  - clear Hnone Hcounts. subst path side corner.
    unfold cornerRadius, drawRoundedSquare, cornerRadii. cbv zeta.
    generalize (radiusAt (map (clampRadius (size - lineWidth)) (radiiAsArray radii)) 0).
    generalize (radiusAt (map (clampRadius (size - lineWidth)) (radiiAsArray radii)) 1).
    generalize (radiusAt (map (clampRadius (size - lineWidth)) (radiiAsArray radii)) 2).
    generalize (radiusAt (map (clampRadius (size - lineWidth)) (radiiAsArray radii)) 3).
    intros r3 r2 r1 r0.
    generalize (lineWidth / 2). intros half.
    generalize (size - lineWidth). intros s.
    unfold roundedAt, curves.
    destruct c; cbv beta iota; intros Hc; rewrite Hc;
      destruct fill;
      [ destruct (truthy r1), (truthy r2), (truthy r3)
      | destruct (truthy r1), (truthy r2), (truthy r3)
      | destruct (truthy r0), (truthy r2), (truthy r3)
      | destruct (truthy r0), (truthy r2), (truthy r3)
      | destruct (truthy r0), (truthy r1), (truthy r3)
      | destruct (truthy r0), (truthy r1), (truthy r3)
      | destruct (truthy r0), (truthy r1), (truthy r2)
      | destruct (truthy r0), (truthy r1), (truthy r2) ];
      cbn [app curvesFrom cornerPoint fst snd];
      eexists; (split; [pick_in | unfold samePoint, axisDistance; solve [geo]]).
Qed.

Lemma X10_rounded_square_curves_and_fill_witness :
  roundedAt (drawRoundedSquare 8 10 10 50 "#000000" (RadiiArray [30; 0; -4; 5]) true)
            (cornerPoint (10 + 8 / 2) (10 + 8 / 2) (50 - 8) (50 - 8) TopLeft)
            (cornerRadius (50 - 8) (RadiiArray [30; 0; -4; 5]) TopLeft) /\
  ~ (exists cv,
        In cv (curves (drawRoundedSquare 8 10 10 50 "#000000"
                         (RadiiArray [30; 0; -4; 5]) true)) /\
        samePoint (curveControl cv)
                  (cornerPoint (10 + 8 / 2) (10 + 8 / 2) (50 - 8) (50 - 8) TopRight)).
Proof.
  destruct (X10_rounded_square_curves_and_fill 8 10 10 50 "#000000"
              (RadiiArray [30; 0; -4; 5]) true) as [Hrounded [Hnone _]].
  split.
  - apply Hrounded. reflexivity.
  - apply Hnone. reflexivity.
Defined.

(** X11.  The paths of [drawRoundedSquare], of the fluid style and of the
    hearts style come back to their starting point by their own segments,
    for every input: [closePath] adds no edge to them. *)
Theorem X11_paths_return_to_start :
  (forall (lineWidth x y size : Q) (color : string) (radii : Radii) (fill : bool),
      returnsToStart (drawRoundedSquare lineWidth x y size color radii fill)) /\
  (forall (qrCode : QRCodeModel) (cellSize offset : Q) (fgColor : string)
          (row col : Z),
      returnsToStart (paintFluid qrCode cellSize offset fgColor row col)) /\
  (forall (cellSize centerX centerY : Q),
      returnsToStart (heartShape cellSize centerX centerY)).
Proof.
  split; [|split].
  - intros lineWidth x y side color radii fill.
    unfold returnsToStart, drawRoundedSquare, cornerRadii. cbv zeta.
    generalize (radiusAt (map (clampRadius (side - lineWidth)) (radiiAsArray radii)) 0).
    generalize (radiusAt (map (clampRadius (side - lineWidth)) (radiiAsArray radii)) 1).
    generalize (radiusAt (map (clampRadius (side - lineWidth)) (radiiAsArray radii)) 2).
    generalize (radiusAt (map (clampRadius (side - lineWidth)) (radiiAsArray radii)) 3).
    intros r3 r2 r1 r0.
    destruct (truthy r0) eqn:E0, (truthy r1), (truthy r2), (truthy r3), fill;
      cbn [app pathStart penAfter]; do 2 eexists;
      (split; [reflexivity|]); (split; [reflexivity|]);
      unfold samePoint; cbn [fst snd];
      try (split; reflexivity);
      unfold truthy in E0; apply negb_false_iff, Qeq_bool_iff in E0;
      split; lra.
  - intros. unfold returnsToStart, paintFluid. cbv zeta.
    destruct (isDarkUp qrCode row col), (isDarkDown qrCode row col),
      (isDarkLeft qrCode row col), (isDarkRight qrCode row col);
      cbn [negb andb app pathStart penAfter]; do 2 eexists;
      (split; [reflexivity|]); (split; [reflexivity|]); split; reflexivity.
  - intros. unfold returnsToStart, heartShape. cbv zeta.
    cbn [pathStart penAfter]. do 2 eexists.
    split; [reflexivity|]. split; [reflexivity|]. split; reflexivity.
Qed.

(** ** The eyes *)

(** X12.  On a grid of [N > 0] modules with [cellSize = size / N], the three
    eyes sit in the corners of the module area, the square of side [size]
    at [(offset, offset)]: the outer square of the first eye starts at
    [(offset, offset)], the one of the second eye ends at abscissa
    [offset + size], the one of the third eye ends at ordinate
    [offset + size].  In every eye the inner box has the same centre as the
    outer square. *)
Theorem X12_eyes_sit_in_the_corners
    (size offset : Q) (N : Z) (color : EyeColor) (radii : option CornerRadii) :
  (0 < N)%Z ->
  let cellSize := size / inject_Z N in
  exists o0 i0 o1 i1 o2 i2,
    map (fun zone => positioningPatternCalls cellSize offset
                       (ICoordinates.row zone) (ICoordinates.col zone)
                       (Some color) radii)
        (positioningZonesOf N)
    = [inr [o0; i0]; inr [o1; i1]; inr [o2; i2]] /\
    (callX o0 == offset /\ callY o0 == offset) /\
    (callX o1 + callSize o1 == offset + size /\ callY o1 == offset) /\
    (callX o2 == offset /\ callY o2 + callSize o2 == offset + size) /\
    Forall (fun pair =>
              callX (snd pair) + callSize (snd pair) / 2
              == callX (fst pair) + callSize (fst pair) / 2 /\
              callY (snd pair) + callSize (snd pair) / 2
              == callY (fst pair) + callSize (fst pair) / 2)
           [(o0, i0); (o1, i1); (o2, i2)].
Proof.
  intros HN cellSize.
  assert (Hnz : ~ inject_Z N == 0).
  { intros H. unfold Qeq in H. simpl in H. lia. }
  assert (Hfar : inject_Z (N - 7) * cellSize + offset + cellSize * 7 == offset + size).
  { unfold cellSize, Zminus. rewrite inject_Z_plus.
    change (inject_Z (- (7))) with (-7). clear cellSize.
    generalize dependent (inject_Z N). intros n Hn. field. exact Hn. }
  unfold positioningPatternCalls, positioningZonesOf. cbv zeta.
  destruct radii as [[r | rin rout]|]; destruct color as [c | cin cout];
    cbn [map ICoordinates.row ICoordinates.col]; do 6 eexists;
    (split; [reflexivity|]);
    cbn [callX callY callSize fst snd];
    (split; [split; change (inject_Z 0) with 0; ring|]);
    (split; [split; [exact Hfar | change (inject_Z 0) with 0; ring]|]);
    (split; [split; [change (inject_Z 0) with 0; ring | exact Hfar]|]);
    repeat constructor; cbn [fst snd callX callY callSize]; field.
Qed.

Lemma X12_eyes_sit_in_the_corners_witness :
  inject_Z (21 - 7) * (150 / inject_Z 21) + 10 + (150 / inject_Z 21) * 7 == 10 + 150.
Proof.
  destruct (X12_eyes_sit_in_the_corners 150 10 21 (EyeColorString "#000000") None)
    as [o0 [i0 [o1 [i1 [o2 [i2 [Hcalls [_ [[Hx _] _]]]]]]]]].
  - lia.
  - injection Hcalls as _ _ H1 _ _ _. subst o1. exact Hx.
Defined.

(** X13.  For a cell size of at least 1, the ring of an eye is at least one
    cell thick and does not reach the inner box: the stroke of the outer
    square, [ceil(cellSize)] wide from the edge of the eye inwards, ends
    before the inner box begins, on the near and on the far side. *)
Theorem X13_eye_ring_clear_of_inner_box
    (cellSize offset : Q) (row col : Z) (color : EyeColor) (radii : option CornerRadii) :
  1 <= cellSize ->
  exists outerBox innerBox,
    positioningPatternCalls cellSize offset row col (Some color) radii
      = inr [outerBox; innerBox] /\
    cellSize <= callLineWidth outerBox /\
    callX outerBox + callLineWidth outerBox <= callX innerBox /\
    callY outerBox + callLineWidth outerBox <= callY innerBox /\
    callX innerBox + callSize innerBox
      <= callX outerBox + callSize outerBox - callLineWidth outerBox /\
    callY innerBox + callSize innerBox
      <= callY outerBox + callSize outerBox - callLineWidth outerBox.
Proof.
  intros Hcs.
  assert (Hlw : cellSize <= Math_ceil cellSize /\ Math_ceil cellSize <= cellSize * 2).
  { unfold Math_ceil. pose proof (Qle_ceiling cellSize) as H1.
    pose proof (Qceiling_lt cellSize) as H2.
    unfold Zminus in H2. rewrite inject_Z_plus in H2.
    change (inject_Z (- (1))) with (-1) in H2.
    generalize dependent (inject_Z (Qceiling cellSize)). intros c H1 H2. lra. }
  destruct Hlw as [Hlo Hhi].
  unfold positioningPatternCalls. cbv zeta.
  destruct radii as [[r | rin rout]|]; destruct color as [c | cin cout];
    do 2 eexists; (split; [reflexivity|]);
    cbn [callX callY callSize callLineWidth];
    generalize dependent (Math_ceil cellSize); intros lw Hlo Hhi;
    generalize (inject_Z row * cellSize); generalize (inject_Z col * cellSize);
    intros cx cy; repeat split; lra.
Qed.

Lemma X13_eye_ring_clear_of_inner_box_witness :
  exists outerBox innerBox,
    positioningPatternCalls (150 / inject_Z 21) 10 0 0
                            (Some (EyeColorString "#000000")) None
      = inr [outerBox; innerBox] /\
    callX outerBox + callLineWidth outerBox <= callX innerBox.
Proof.
  destruct (X13_eye_ring_clear_of_inner_box (150 / inject_Z 21) 10 0 0
              (EyeColorString "#000000") None)
    as [o [i [Hcalls [_ [Hx _]]]]].
  - discriminate.
  - exists o, i. split; assumption.
Defined.

(** ** Exceptions *)


(** The colour of eye [i] is undefined exactly when [eyeColor] is an array
    whose entry [i] is missing, [undefined] or [null]. *)
Lemma eyeColorFor_defined (eyeColor : option EyeColorProp) (fgColor : string) (i : nat) :
  eyeColorFor eyeColor fgColor i = None <->
  exists l, eyeColor = Some (EyeColorArray l) /\
            (nth_error l i = None \/ nth_error l i = Some None).
Proof.
  unfold eyeColorFor. destruct eyeColor as [[[c | cin cout] | l]|]; cbn [eyeColorFalsy].
  - destruct (negb (truthyStr c)); split; try discriminate;
      intros [l [H _]]; discriminate H.
  - split; [discriminate|]. intros [l [H _]]; discriminate H.
  - split.
    + intros H. exists l. split; [reflexivity|].
      destruct (nth_error l i) as [[e|]|]; [discriminate H | now right | now left].
    + intros [l' [H Hnth]]. injection H as <-.
      destruct Hnth as [-> | ->]; reflexivity.
  - split; [discriminate|]. intros [l [H _]]; discriminate H.
Qed.








(** ** Eye radii *)

(** X15.  A scalar [eyeRadius] paints what the array of that scalar for each
    eye paints, and what the array of the four-corner lists paints.  An
    [eyeRadius] array of any length paints what it paints once completed to
    three entries with radius 0: an eye without an entry is drawn with
    square corners, and the entries that are there keep their effect. *)
Theorem X15_scalar_eye_radius_is_per_eye_radius (env : Env) (p : IProps) (r : Q) :
  syncPaint env (withEyeRadius p (EyeRadiusNumber r))
  = syncPaint env (withEyeRadius p
      (EyeRadiusArray [CornerRadiiPlain (RadiiNumber r);
                       CornerRadiiPlain (RadiiNumber r);
                       CornerRadiiPlain (RadiiNumber r)])) /\
  syncPaint env (withEyeRadius p (EyeRadiusNumber r))
  = syncPaint env (withEyeRadius p
      (EyeRadiusArray [CornerRadiiPlain (RadiiArray [r; r; r; r]);
                       CornerRadiiPlain (RadiiArray [r; r; r; r]);
                       CornerRadiiPlain (RadiiArray [r; r; r; r])])) /\
  (forall l : list CornerRadii,
      syncPaint env (withEyeRadius p (EyeRadiusArray l))
      = syncPaint env (withEyeRadius p
          (EyeRadiusArray (l ++ repeat (CornerRadiiPlain (RadiiNumber 0))
                                       (3 - length l))))) /\
  syncPaint env (withEyeRadius p (EyeRadiusArray []))
  = syncPaint env (withEyeRadius p (EyeRadiusNumber 0)).
Proof.
  unfold syncPaint, drawEyes, drawEye. cbv zeta.
  cbn [withEyeRadius eyeRadius value ecLevel size quietZone bgColor fgColor
       eyeColor qrStyle seq forEach].
  split; [f_equal|]. split; [f_equal|]. split; [|f_equal].
  intros l. destruct l as [|a [|b [|c l]]]; reflexivity.
Qed.

(** ** The logo overlay *)

(** X16.  The load handler draws the logo centred on the canvas: the centre
    of the image rectangle is the centre of the square of side
    [size + 2 * quietZone], for every width, height and padding.  The region
    it clears behind the logo, a rectangle or an ellipse, has the same
    centre and extends [logoPadding] beyond the image on every side. *)
Theorem X16_logo_and_cleared_region_are_centred (env : Env) (p : IProps) :
  let canvasSize := size p + 2 * quietZone p in
  let padding := numberOrZero (logoPadding p) in
  exists image dx dy dWidth dHeight,
    In (DrawImage image dx dy dWidth dHeight) (logoOverlay env p) /\
    dx + dWidth / 2 == canvasSize / 2 /\
    dy + dHeight / 2 == canvasSize / 2 /\
    (forall x y w h,
        In (FillRect x y w h) (logoOverlay env p) ->
        x == dx - padding /\ y == dy - padding /\
        w == dWidth + 2 * padding /\ h == dHeight + 2 * padding /\
        x + w / 2 == canvasSize / 2 /\ y + h / 2 == canvasSize / 2) /\
    (forall x y rx ry rotation a b,
        In (Ellipse x y rx ry rotation a b) (logoOverlay env p) ->
        x == canvasSize / 2 /\ y == canvasSize / 2 /\
        rx == dWidth / 2 + padding /\ ry == dHeight / 2 + padding).
Proof.
  cbv zeta. unfold logoOverlay. cbv zeta.
  generalize (numberOrZero (logoPadding p)). intros pad.
  generalize (orElse (numberOrZero (logoWidth p)) (size p * (2 # 10))). intros dW.
  generalize (orElse (numberOrZero (logoHeight p)) dW). intros dH.
  generalize (quietZone p) (size p). intros q s.
  do 5 eexists. split.
  - apply in_or_app. right. apply in_or_app. right. apply in_or_app. left.
    right. left. reflexivity.
  - split; [field|]. split; [field|]. split.
    + intros x y w h Hin.
      destruct (removeQrCodeBehindLogo p || truthy pad);
        destruct (String.eqb (logoPaddingStyle p) "circle");
        destruct (logoOnLoad p); cbn [app In] in Hin;
        repeat match type of Hin with
               | _ \/ _ => destruct Hin as [Hin | Hin]; [try discriminate Hin|]
               | False => destruct Hin
               end;
        injection Hin as <- <- <- <-; repeat split; field.
    + intros x y rx ry rot a b Hin.
      destruct (removeQrCodeBehindLogo p || truthy pad);
        destruct (String.eqb (logoPaddingStyle p) "circle");
        destruct (logoOnLoad p); cbn [app In] in Hin;
        repeat match type of Hin with
               | _ \/ _ => destruct Hin as [Hin | Hin]; [try discriminate Hin|]
               | False => destruct Hin
               end;
        injection Hin as <- <- <- <- <- <- <-; repeat split; field.
Qed.

Lemma X16_logo_and_cleared_region_are_centred_witness :
  exists image dx dy dWidth dHeight,
    In (DrawImage image dx dy dWidth dHeight) (logoOverlay (sampleEnv (allDark 21)) logoProps) /\
    dx + dWidth / 2 == (150 + 2 * 10) / 2 /\
    (forall x y rx ry rotation a b,
        In (Ellipse x y rx ry rotation a b) (logoOverlay (sampleEnv (allDark 21)) logoProps) ->
        x == (150 + 2 * 10) / 2).
Proof.
  destruct (X16_logo_and_cleared_region_are_centred (sampleEnv (allDark 21)) logoProps)
    as [image [dx [dy [dW [dH [Hin [Hx [_ [_ Hell]]]]]]]]].
  exists image, dx, dy, dW, dH. split; [exact Hin|]. split; [exact Hx|].
  intros x y rx ry rot a b Hop. apply (Hell x y rx ry rot a b Hop).
Defined.

(** X17.  The load handler clears a region behind the logo exactly when
    [removeQrCodeBehindLogo] is set or [logoPadding] is not zero.  Whatever
    it changes ([strokeStyle], [fillStyle], [globalAlpha]) lies between its
    one [save] and its one [restore]; the callback, if any, runs after the
    [restore] and is the last thing it does. *)
Theorem X17_overlay_clears_iff_remove_or_padding (env : Env) (p : IProps) :
  exists body,
    logoOverlay env p
    = [Save] ++ body ++ [Restore]
      ++ (if logoOnLoad p then [InvokeLogoOnLoad] else []) /\
    existsb isSave body = false /\
    existsb isRestore body = false /\
    existsb clearsRegion body
    = removeQrCodeBehindLogo p || truthy (numberOrZero (logoPadding p)).
Proof.
  unfold logoOverlay. cbv zeta.
  match goal with
  | |- exists body, [Save] ++ ?clear ++ [?alpha; ?draw; Restore] ++ ?callback = _ /\ _ =>
      exists (clear ++ [alpha; draw])
  end.
  split; [now rewrite <- !app_assoc|].
  destruct (removeQrCodeBehindLogo p || truthy (numberOrZero (logoPadding p)));
    destruct (String.eqb (logoPaddingStyle p) "circle");
    repeat split; reflexivity.
Qed.

(** ** Shapes *)

Lemma round_step (cellSize : Q) (i : Z) :
  cellSize - 1
  < Math_round (inject_Z (i + 1) * cellSize) - Math_round (inject_Z i * cellSize).
Proof.
  unfold Math_round.
  pose proof (Qlt_floor (inject_Z (i + 1) * cellSize + (1 # 2))) as Hhi.
  pose proof (Qfloor_le (inject_Z i * cellSize + (1 # 2))) as Hlo.
  rewrite (inject_Z_plus (Qfloor (inject_Z (i + 1) * cellSize + (1 # 2))) 1) in Hhi.
  change (inject_Z 1) with 1 in Hhi.
  assert (He : inject_Z (i + 1) * cellSize == inject_Z i * cellSize + cellSize).
  { rewrite inject_Z_plus. change (inject_Z 1) with 1. ring. }
  generalize dependent (inject_Z (Qfloor (inject_Z (i + 1) * cellSize + (1 # 2)))).
  generalize dependent (inject_Z (Qfloor (inject_Z i * cellSize + (1 # 2)))).
  generalize dependent (inject_Z (i + 1) * cellSize).
  generalize (inject_Z i * cellSize). intros a a' He lo Hlo hi Hhi. lra.
Qed.

(** X18.  In the dots style each module is a full circle of radius
    [3/8 * cellSize], and for a cell size of at least 4 the circles of two
    neighbouring modules do not touch: their centres are further apart than
    two radii, horizontally and vertically. *)
Theorem X18_adjacent_dots_do_not_touch (M : MathLib) (cellSize offset : Q)
    (row col : Z) :
  4 <= cellSize ->
  exists x y r a b xRight yBelow,
    paintDot M cellSize offset row col
      = [BeginPath; Arc x y r a b false; ClosePath; Fill] /\
    paintDot M cellSize offset row (col + 1)
      = [BeginPath; Arc xRight y r a b false; ClosePath; Fill] /\
    paintDot M cellSize offset (row + 1) col
      = [BeginPath; Arc x yBelow r a b false; ClosePath; Fill] /\
    a == 0 /\ b == 2 * Math_PI M /\
    r == cellSize * (3 # 8) /\
    2 * r < xRight - x /\ 2 * r < yBelow - y.
Proof.
  intros Hcs. unfold paintDot, dotShape. cbv zeta. do 7 eexists.
  split; [reflexivity|]. split; [reflexivity|]. split; [reflexivity|].
  split; [reflexivity|]. split; [reflexivity|]. split; [field|].
  pose proof (round_step cellSize col) as Hc.
  pose proof (round_step cellSize row) as Hr.
  generalize dependent (Math_round (inject_Z (col + 1) * cellSize)).
  generalize dependent (Math_round (inject_Z col * cellSize)).
  generalize dependent (Math_round (inject_Z (row + 1) * cellSize)).
  generalize dependent (Math_round (inject_Z row * cellSize)).
  intros r0 r1 Hr c0 c1 Hc.
  assert (Hd : 2 * (cellSize / 2 / 100 * 75) == cellSize * (3 # 4)) by field.
  rewrite Hd. split; lra.
Qed.

Lemma X18_adjacent_dots_do_not_touch_witness :
  exists x y r a b xRight yBelow,
    paintDot sampleMath (150 / inject_Z 21) 10 8 8
      = [BeginPath; Arc x y r a b false; ClosePath; Fill] /\
    paintDot sampleMath (150 / inject_Z 21) 10 8 (8 + 1)
      = [BeginPath; Arc xRight y r a b false; ClosePath; Fill] /\
    paintDot sampleMath (150 / inject_Z 21) 10 (8 + 1) 8
      = [BeginPath; Arc x yBelow r a b false; ClosePath; Fill] /\
    2 * r < xRight - x.
Proof.
  destruct (X18_adjacent_dots_do_not_touch sampleMath (150 / inject_Z 21) 10 8 8)
    as [x [y [r [a [b [xR [yB [H0 [H1 [H2 [_ [_ [_ [Hx _]]]]]]]]]]]]]].
  - discriminate.
  - exists x, y, r, a, b, xR, yB. auto.
Defined.








(** ** Neighbouring fluid cells *)

(** For a cell of the grid with a positive size, the path of the fluid style
    is sharp at a corner exactly when one of the two neighbours adjacent to
    the corner is dark. *)
Lemma paintFluid_sharp_iff (qrCode : QRCodeModel) (cellSize offset : Q)
    (fgColor : string) (row col : Z) (c : Corner) :
  (0 <= row < getModuleCount qrCode)%Z ->
  (0 <= col < getModuleCount qrCode)%Z ->
  0 < cellSize ->
  sharpAt (paintFluid qrCode cellSize offset fgColor row col)
          (cornerPoint
             (Math_round (inject_Z col * cellSize) + offset)
             (Math_round (inject_Z row * cellSize) + offset)
             (Math_ceil (inject_Z (col + 1) * cellSize) - Math_floor (inject_Z col * cellSize))
             (Math_ceil (inject_Z (row + 1) * cellSize) - Math_floor (inject_Z row * cellSize))
             c)
  <-> cornerFree qrCode row col c = false.
Proof.
  intros Hrow Hcol Hpos.
  rewrite (paintFluid_outline qrCode cellSize offset fgColor row col Hrow Hcol).
  assert (Hr : 0 < cellSize / (3 # 2)) by (apply Qlt_shift_div_l; lra).
  assert (Hlt : cellSize / (3 # 2) < cellSize) by (apply Qlt_shift_div_r; lra).
  assert (Hw : cellSize / (3 # 2)
               < Math_ceil (inject_Z (col + 1) * cellSize)
                 - Math_floor (inject_Z col * cellSize)).
  { pose proof (cell_extent cellSize col) as H.
    generalize dependent (Math_ceil (inject_Z (col + 1) * cellSize)
                          - Math_floor (inject_Z col * cellSize)).
    intros w H. lra. }
  assert (Hh : cellSize / (3 # 2)
               < Math_ceil (inject_Z (row + 1) * cellSize)
                 - Math_floor (inject_Z row * cellSize)).
  { pose proof (cell_extent cellSize row) as H.
    generalize dependent (Math_ceil (inject_Z (row + 1) * cellSize)
                          - Math_floor (inject_Z row * cellSize)).
    intros h H. lra. }
  rewrite <- (fluidOutline_sharp_iff
                (Math_round (inject_Z col * cellSize) + offset)
                (Math_round (inject_Z row * cellSize) + offset)
                _ _ (cellSize / (3 # 2)) Hr Hw Hh (cornerFree qrCode row col) c).
  unfold sharpAt. rewrite curves_cons_style.
  split; intros [[px [py [Hp Hsame]]] Hno]; (split; [|exact Hno]);
    exists px, py; (split; [|exact Hsame]).
  - destruct Hp as [Hp | Hp]; [discriminate Hp | exact Hp].
  - right. exact Hp.
Qed.

(** X20.  In the fluid style two dark modules side by side fuse: with a
    positive cell size, when the module to the right of a cell is dark, the
    two right corners of the cell's path are sharp vertices, and when the
    module to its left is dark the two left corners are; likewise the top
    and bottom corners for the modules above and below. *)
Theorem X20_fluid_shared_edge_has_sharp_corners (qrCode : QRCodeModel)
    (cellSize offset : Q) (fgColor : string) (row col : Z) :
  let N := getModuleCount qrCode in
  let x := Math_round (inject_Z col * cellSize) + offset in
  let y := Math_round (inject_Z row * cellSize) + offset in
  let w := Math_ceil (inject_Z (col + 1) * cellSize) - Math_floor (inject_Z col * cellSize) in
  let h := Math_ceil (inject_Z (row + 1) * cellSize) - Math_floor (inject_Z row * cellSize) in
  let sharp c := sharpAt (paintFluid qrCode cellSize offset fgColor row col)
                         (cornerPoint x y w h c) in
  (0 <= row < N)%Z -> (0 <= col < N)%Z -> 0 < cellSize ->
  ((col + 1 < N)%Z -> isDark qrCode row (col + 1) = true ->
   sharp TopRight /\ sharp BottomRight) /\
  ((0 < col)%Z -> isDark qrCode row (col - 1) = true ->
   sharp TopLeft /\ sharp BottomLeft) /\
  ((row + 1 < N)%Z -> isDark qrCode (row + 1) col = true ->
   sharp BottomLeft /\ sharp BottomRight) /\
  ((0 < row)%Z -> isDark qrCode (row - 1) col = true ->
   sharp TopLeft /\ sharp TopRight).
Proof.
  intros N x y w h sharp Hrow Hcol Hpos.
  assert (Hdark : forall r c, (0 <= r < N)%Z -> (0 <= c < N)%Z ->
                              isDark qrCode r c = true -> darkNeighbor qrCode r c = true).
  { intros r c Hr Hc Hd. unfold darkNeighbor. fold N. rewrite Hd.
    assert ((0 <=? r)%Z = true) as -> by (apply Z.leb_le; lia).
    assert ((r <? N)%Z = true) as -> by (apply Z.ltb_lt; lia).
    assert ((0 <=? c)%Z = true) as -> by (apply Z.leb_le; lia).
    assert ((c <? N)%Z = true) as -> by (apply Z.ltb_lt; lia).
    reflexivity. }
  repeat split; intros;
    apply (paintFluid_sharp_iff qrCode cellSize offset fgColor row col _ Hrow Hcol Hpos);
    unfold cornerFree;
    match goal with
    | Hd : isDark qrCode ?r ?c = true |- _ =>
        rewrite (Hdark r c) by (assumption || lia)
    end;
    cbn [negb andb]; rewrite ?andb_false_r; reflexivity.
Qed.

Lemma X20_fluid_shared_edge_has_sharp_corners_witness :
  let cellSize := 150 / inject_Z 21 in
  let x := Math_round (inject_Z 8 * cellSize) + 10 in
  let w := Math_ceil (inject_Z (8 + 1) * cellSize) - Math_floor (inject_Z 8 * cellSize) in
  sharpAt (paintFluid (allDark 21) cellSize 10 "#000000" 8 8)
          (cornerPoint x x w w TopRight).
Proof.
  cbv zeta.
  destruct (X20_fluid_shared_edge_has_sharp_corners (allDark 21) (150 / inject_Z 21) 10
              "#000000" 8 8) as [Hright _].
  - simpl. lia.
  - simpl. lia.
  - reflexivity.
  - destruct Hright as [Htr _]; [simpl; lia | reflexivity | exact Htr].
Defined.

(** ** Hearts and diamonds *)

(** X21.  The heart is symmetric about the vertical line through its
    centre: both curves start or end on that line and the control points of
    the second curve are the mirror images of those of the first.  For a
    cell size that is not negative, every point of the heart and of the
    diamond lies in the square of side [cellSize] centred on the shape's
    centre. *)
Theorem X21_heart_is_symmetric_and_stays_in_its_cell
    (cellSize centerX centerY : Q) :
  (exists startY tipY ax ay bx by_,
      heartShape cellSize centerX centerY
      = [BeginPath;
         MoveTo centerX startY;
         BezierCurveTo ax ay bx by_ centerX tipY;
         BezierCurveTo (centerX - cellSize / 4 * 2) by_ (centerX - cellSize / 4) ay
                       centerX startY;
         ClosePath; Fill] /\
      centerX - cellSize / 4 * 2 == 2 * centerX - bx /\
      centerX - cellSize / 4 == 2 * centerX - ax) /\
  (0 <= cellSize ->
   Forall (inSquare (centerX - cellSize / 2) (centerY - cellSize / 2) cellSize)
          (flat_map pointsOf (heartShape cellSize centerX centerY)) /\
   Forall (inSquare (centerX - cellSize / 2) (centerY - cellSize / 2) cellSize)
          (flat_map pointsOf (diamondShape cellSize centerX centerY))).
Proof.
  split.
  - unfold heartShape. cbv zeta. do 6 eexists.
    split; [reflexivity|]. split; ring.
  - intros Hcs.
    assert (H2 : cellSize / 2 == cellSize * (1 # 2)) by field.
    assert (H4 : cellSize / 4 == cellSize * (1 # 4)) by field.
    assert (H6 : cellSize / 4 / (3 # 2) == cellSize * (1 # 6)) by field.
    assert (H12 : cellSize / 4 / 3 == cellSize * (1 # 12)) by field.
    unfold heartShape, diamondShape, inSquare. cbv zeta.
    cbn [flat_map pointsOf app fst snd].
    split; repeat constructor; cbn [fst snd];
      rewrite ?H6, ?H12, ?H4, ?H2; lra.
Qed.

Lemma X21_heart_is_symmetric_and_stays_in_its_cell_witness :
  Forall (inSquare (50 - 8 / 2) (60 - 8 / 2) 8)
         (flat_map pointsOf (heartShape 8 50 60)).
Proof.
  destruct (X21_heart_is_symmetric_and_stays_in_its_cell 8 50 60) as [_ Hin].
  apply Hin. discriminate.
Defined.
